(** * The Python Agent base class (examples/python-agent/src/agent.py)

    A shallow embedding of [Agent]: the kebab-case identity formatter, the
    lazily resolved and persisted state, the state broadcast, the WebSocket
    lifecycle callbacks and the RPC dispatcher, together with the properties
    of them that the specification states. *)

From Stdlib Require Import ZArith Ascii String.
From stdpp Require Import base option list gmap strings pretty.

Set Warnings "-register-all".
Open Scope string_scope.

(** ** Python values

    Python [str] objects are modelled by [string], one character per code
    point below 256. *)

(** What [json.loads] returns: [None], [bool], [int], [float], [str], [list]
    and [dict] with [str] keys.  A float is kept as the text [json.dumps]
    emits for it ([float.__repr__], or [NaN], [Infinity], [-Infinity]).  A
    [dict] is its items in insertion order. *)
Inductive json : Type :=
  | JNull
  | JBool (b : bool)
  | JInt (z : Z)
  | JFloat (repr : string)
  | JStr (s : string)
  | JList (items : list json)
  | JDict (items : list (string * json)).

(** A raised exception: its class and [str(e)]. *)
Record exn : Type := Exn { exn_class : string; exn_str : string }.

(** An arbitrary Python object as the agent handles it: either a value
    [json.dumps] encodes, or one it rejects, represented by the exception
    [json.dumps] raises on it (also when it is nested in a container). *)
Inductive pyval : Type :=
  | PJson (j : json)
  | PNotJson (e : exn).

Definition TypeError (msg : string) : exn := Exn "TypeError" msg.
Definition AttributeError (msg : string) : exn := Exn "AttributeError" msg.
Definition ValueError (msg : string) : exn := Exn "ValueError" msg.
Definition JSONDecodeError (msg : string) : exn := Exn "JSONDecodeError" msg.

(** [isinstance(e, classes)], as an [except] clause tests it, for classes
    without subclasses of their own among the exceptions raised here. *)
Definition is_instance (classes : list string) (e : exn) : bool :=
  existsb (String.eqb (exn_class e)) classes.

(** [json.dumps] on an instance of a class it has no encoder for. *)
Definition not_serializable (tyname : string) : exn :=
  TypeError ("Object of type " +:+ tyname +:+ " is not JSON serializable").

(** [type(v).__name__] *)
Definition type_name (j : json) : string :=
  match j with
  | JNull => "NoneType"
  | JBool _ => "bool"
  | JInt _ => "int"
  | JFloat _ => "float"
  | JStr _ => "str"
  | JList _ => "list"
  | JDict _ => "dict"
  end.

(** ** Characters *)

Definition code (c : ascii) : N := N_of_ascii c.

Definition in_range (lo hi : N) (c : ascii) : bool :=
  (lo <=? code c)%N && (code c <=? hi)%N.

(** The regular expression classes [[A-Z]], [[a-z]] and [[0-9]]. *)
Definition is_upper : ascii -> bool := in_range 65 90.
Definition is_lower : ascii -> bool := in_range 97 122.
Definition is_digit : ascii -> bool := in_range 48 57.

(** [.] without [re.DOTALL]: any character but the newline. *)
Definition is_dot (c : ascii) : bool := negb (code c =? 10)%N.

(** [str.lower] on one code point below 256: the ASCII capitals and the
    Latin-1 capitals (U+00C0 to U+00DE but the multiplication sign).  On
    these strings [str.lower] works character by character; above U+00FF it
    does not (a capital sigma lowers by its context), and such names are not
    represented here. *)
Definition lower_char (c : ascii) : ascii :=
  if is_upper c || (in_range 192 222 c && negb (code c =? 215)%N)
  then ascii_of_N (code c + 32)
  else c.

Fixpoint lower (s : string) : string :=
  match s with
  | EmptyString => EmptyString
  | String c rest => String (lower_char c) (lower rest)
  end.

(** ** [re.sub]

    [re.sub] scans the subject from left to right; at each position it tries
    the pattern, and on a match emits the replacement and resumes after the
    matched text; otherwise it copies the character.  A pattern is given by
    its matcher at a position: the replacement text and the number of
    characters matched (at least one for both patterns below).  [skip] counts
    the characters of the current match still to be passed over. *)
Fixpoint re_sub (pat : string -> option (string * nat)) (skip : nat) (s : string)
  : string :=
  match s with
  | EmptyString => EmptyString
  | String c rest =>
      match skip with
      | S k => re_sub pat k rest
      | O =>
          match pat s with
          | Some (repl, n) => repl +:+ re_sub pat (Nat.pred n) rest
          | None => String c (re_sub pat 0 rest)
          end
      end
  end.

(** The longest prefix matching [[a-z]*]. *)
Fixpoint lower_run (s : string) : string :=
  match s with
  | String c rest => if is_lower c then String c (lower_run rest) else EmptyString
  | EmptyString => EmptyString
  end.

(** [(.)([A-Z][a-z]+)] replaced by [\1-\2]. *)
Definition pat_word (s : string) : option (string * nat) :=
  match s with
  | String c0 (String c1 (String c2 rest)) =>
      if is_dot c0 && is_upper c1 && is_lower c2
      then let run := lower_run rest in
           Some (String c0 (String "-" (String c1 (String c2 run))),
                 3 + String.length run)
      else None
  | _ => None
  end.

(** [([a-z0-9])([A-Z])] replaced by [\1-\2]. *)
Definition pat_boundary (s : string) : option (string * nat) :=
  match s with
  | String c0 (String c1 _) =>
      if (is_lower c0 || is_digit c0) && is_upper c1
      then Some (String c0 (String "-" (String c1 EmptyString)), 2)
      else None
  | _ => None
  end.

(** [_camel_to_kebab] *)
Definition _camel_to_kebab (name : string) : string :=
  let s1 := re_sub pat_word 0 name in
  lower (re_sub pat_boundary 0 s1).

(** ** [json.dumps]

    With the default settings: [ensure_ascii=True], separators [", "] and
    [": "], no indentation. *)

Definition hex_digit (n : N) : ascii :=
  if (n <? 10)%N then ascii_of_N (48 + n) else ascii_of_N (87 + n).

(** One character of a string literal: every character outside [' '..'~'],
    the quote and the backslash are escaped. *)
Definition escape_char (c : ascii) : string :=
  let n := code c in
  if (n =? 34)%N then "\" +:+ String c EmptyString
  else if (n =? 92)%N then "\\"
  else if (n =? 10)%N then "\n"
  else if (n =? 13)%N then "\r"
  else if (n =? 9)%N then "\t"
  else if (n =? 8)%N then "\b"
  else if (n =? 12)%N then "\f"
  else if (32 <=? n)%N && (n <=? 126)%N then String c EmptyString
  else "\u00" +:+ String (hex_digit (n / 16)) (String (hex_digit (n mod 16)) EmptyString).

Fixpoint escape (s : string) : string :=
  match s with
  | EmptyString => EmptyString
  | String c rest => escape_char c +:+ escape rest
  end.

Definition quoted (s : string) : string :=
  String (ascii_of_N 34) (escape s) +:+ String (ascii_of_N 34) EmptyString.

Fixpoint join (sep : string) (parts : list string) : string :=
  match parts with
  | [] => EmptyString
  | [p] => p
  | p :: ps => p +:+ sep +:+ join sep ps
  end.

Fixpoint json_dumps (j : json) : string :=
  match j with
  | JNull => "null"
  | JBool true => "true"
  | JBool false => "false"
  | JInt z => pretty z
  | JFloat repr => repr
  | JStr s => quoted s
  | JList items => "[" +:+ join ", " (map json_dumps items) +:+ "]"
  | JDict items =>
      "{" +:+ join ", " (map (fun kv => quoted (fst kv) +:+ ": " +:+ json_dumps (snd kv)) items)
          +:+ "}"
  end.

(** JSON texts are written below with ['] for the double quote. *)
Fixpoint dq (s : string) : string :=
  match s with
  | EmptyString => EmptyString
  | String c rest =>
      String (if (code c =? 39)%N then ascii_of_N 34 else c) (dq rest)
  end.

(** [json.dumps] of a container literal holding one arbitrary object:
    [wrap] builds the literal around the object. *)
Definition dumps_in (wrap : json -> json) (v : pyval) : exn + string :=
  match v with
  | PJson j => inr (json_dumps (wrap j))
  | PNotJson e => inl e
  end.

Definition py_dumps : pyval -> exn + string := dumps_in (fun j => j).

(** ** Constants of the module *)

Definition STATE_ROW_ID : string := "cf_state_row_id".
Definition STATE_WAS_CHANGED : string := "cf_state_was_changed".

Definition CF_AGENT_STATE : string := "cf_agent_state".
Definition CF_AGENT_STATE_ERROR : string := "cf_agent_state_error".
Definition CF_AGENT_IDENTITY : string := "cf_agent_identity".
Definition RPC : string := "rpc".

(** Python's [None]. *)
Definition PyNone : pyval := PJson JNull.

(** The module-level sentinel [_UNSET = object()] is the [None] of an
    [option pyval]; where it is handed to [json.dumps] it is an instance of
    [object], which has no encoder. *)
Definition of_slot (o : option pyval) : pyval :=
  match o with
  | Some v => v
  | None => PNotJson (not_serializable "object")
  end.

(** [x is not None] *)
Definition is_not_None (o : option pyval) : bool :=
  match o with
  | Some (PJson JNull) => false
  | _ => true
  end.

(** ** The actor's world

    What one Durable Object instance can see and change: its attribute
    [_state], the rows of the SQLite table [cf_agents_state] (primary key
    [id], nullable text column [state]), the accepted WebSockets in the order
    of [ctx.getWebSockets()], and the text frames sent so far on each. *)
Record world : Type := World {
  cache : option pyval;                (* self._state, None for _UNSET *)
  table : gmap string (option string); (* id |-> state, None for NULL *)
  sockets : list nat;                  (* ctx.getWebSockets() *)
  broken : gmap nat exn;               (* sockets on which send raises *)
  outbox : list (nat * string);        (* (socket, frame), oldest first *)
  next_ws : nat;                       (* next fresh socket handle *)
  ctx_id : string                      (* str(self.ctx.id) *)
}.

Definition with_cache (c : option pyval) (w : world) : world :=
  World c (table w) (sockets w) (broken w) (outbox w) (next_ws w) (ctx_id w).
Definition with_table (t : gmap string (option string)) (w : world) : world :=
  World (cache w) t (sockets w) (broken w) (outbox w) (next_ws w) (ctx_id w).
Definition with_sockets (s : list nat) (w : world) : world :=
  World (cache w) (table w) s (broken w) (outbox w) (next_ws w) (ctx_id w).
Definition with_outbox (o : list (nat * string)) (w : world) : world :=
  World (cache w) (table w) (sockets w) (broken w) o (next_ws w) (ctx_id w).
Definition with_next_ws (n : nat) (w : world) : world :=
  World (cache w) (table w) (sockets w) (broken w) (outbox w) n (ctx_id w).

(** ** Computations: state passing with exceptions

    A raised exception keeps the world as it was when it was raised: nothing
    the code did before is undone. *)
Inductive outcome (A : Type) : Type :=
  | Ok (a : A) (w : world)
  | Raise (e : exn) (w : world).
Arguments Ok {A} a w.
Arguments Raise {A} e w.

Definition M (A : Type) : Type := world -> outcome A.

Definition ret {A} (a : A) : M A := fun w => Ok a w.
Definition raise {A} (e : exn) : M A := fun w => Raise e w.
Definition bind {A B} (m : M A) (k : A -> M B) : M B :=
  fun w => match m w with
           | Ok a w' => k a w'
           | Raise e w' => Raise e w'
           end.

(** [try: m except Exception as e: h e] *)
Definition try_except {A} (m : M A) (h : exn -> M A) : M A :=
  fun w => match m w with
           | Ok a w' => Ok a w'
           | Raise e w' => h e w'
           end.

Definition lift {A} (r : exn + A) : M A :=
  match r with
  | inl e => raise e
  | inr a => ret a
  end.

Notation "x <- m ;; k" := (bind m (fun x => k))
  (at level 100, m at next level, k at level 200, right associativity).
Notation "m >> k" := (bind m (fun _ => k))
  (at level 100, k at level 200, right associativity).

(** The world an outcome ends in. *)
Definition world_of {A} (o : outcome A) : world :=
  match o with
  | Ok _ w => w
  | Raise _ w => w
  end.

Definition get_cache : M (option pyval) := fun w => Ok (cache w) w.
Definition set_cache (c : option pyval) : M unit := fun w => Ok tt (with_cache c w).

(** [for x in xs: body x] *)
Fixpoint for_each {A} (xs : list A) (body : A -> M unit) : M unit :=
  match xs with
  | [] => ret tt
  | x :: rest => body x >> for_each rest body
  end.

(** ** The collaborators: SQLite and WebSockets *)

(** [SELECT state FROM cf_agents_state WHERE id = ?], as the list of the
    [state] column of the rows found (at most one: [id] is the primary key). *)
Definition sql_select (id : string) : M (list (option string)) :=
  fun w => Ok (match table w !! id with
               | Some st => [st]
               | None => []
               end) w.

(** [INSERT OR REPLACE INTO cf_agents_state (id, state) VALUES (?, ?)] *)
Definition sql_upsert (id st : string) : M unit :=
  fun w => Ok tt (with_table (<[id := Some st]> (table w)) w).

(** [DELETE FROM cf_agents_state WHERE id = ?] *)
Definition sql_delete (id : string) : M unit :=
  fun w => Ok tt (with_table (delete id (table w)) w).

(** [ws.send(text)] *)
Definition ws_send (ws : nat) (text : string) : M unit :=
  fun w => match broken w !! ws with
           | Some e => Raise e w
           | None => Ok tt (with_outbox (outbox w ++ [(ws, text)]) w)
           end.

(** [self.ctx.getWebSockets()] *)
Definition getWebSockets : M (list nat) := fun w => Ok (sockets w) w.

(** [self.ctx.acceptWebSocket(server)] *)
Definition acceptWebSocket (server : nat) : M unit :=
  fun w => Ok tt (with_sockets (sockets w ++ [server]) w).

(** [WebSocketPair.new()]: the client end and the server end. *)
Definition WebSocketPair_new : M (nat * nat) :=
  fun w => Ok (next_ws w, S (next_ws w)) (with_next_ws (S (S (next_ws w))) w).

(** ** Agent classes *)

(** A text frame or a binary frame, as [webSocketMessage] receives it. *)
Inductive ws_message : Type :=
  | Text (s : string)
  | Binary (b : list ascii).

(** What a method body reaches through [self]. *)
Record self_api : Type := SelfApi {
  self_state : M (option pyval);        (* self.state *)
  self_set_state : pyval -> M unit      (* self.set_state(v) *)
}.

(** A function defined in the class body.  [_agent_callable] and
    [_agent_callable_meta] are the attributes the decorator [callable] sets;
    an undecorated function has neither. *)
Record method : Type := Method {
  __module__ : string;
  qualname : string;
  body : self_api -> list json -> M pyval;
  _agent_callable : bool;
  _agent_callable_meta : option (option string * bool)
}.

(** [def] in the module [module], under the qualified name [name]. *)
Definition def (module name : string) (f : self_api -> list json -> M pyval) : method :=
  Method module name f false None.

(** [@callable(description=..., streaming=...)] *)
Definition callable (description : option string) (streaming : bool) (f : method)
  : method :=
  Method (__module__ f) (qualname f) (body f) true (Some (description, streaming)).

(** An attribute of the class: a function whose body matters to the
    dispatcher, or any other attribute without [_agent_callable] (a property,
    a constant, a function that is never decorated). *)
Inductive attr : Type :=
  | Function (m : method)
  | Other.

(** A subclass of [Agent]: its name, [initial_state] ([None] when the class
    keeps the inherited [_UNSET]), the attributes [dir(self)] lists as
    [getattr(type(self), name, None)] resolves them, and the override points. *)
Record AgentClass : Type := {
  __name__ : string;
  initial_state : option pyval;
  members : gmap string attr;
  on_connect : nat -> M unit;
  on_message : nat -> ws_message -> M unit;
  on_close : nat -> Z -> string -> bool -> M unit;
  on_error : nat -> exn -> M unit;
  on_state_changed : pyval -> M unit
}.

(** [request.headers.get("Upgrade")] is all [fetch] looks at. *)
Record request : Type := Request { upgrade_header : option string }.

(** [Response.new(body, init)] *)
Record response : Type := Response {
  status : Z;
  resp_body : option string;
  headers : list (string * string);
  webSocket : option nat
}.

(** [d.get(key, dflt)] on what [json.loads] returned; only a [dict] has a
    [get]. *)
Fixpoint dict_lookup (key : string) (items : list (string * json)) : option json :=
  match items with
  | [] => None
  | (k, v) :: rest => if String.eqb k key then Some v else dict_lookup key rest
  end.

Definition py_get (d : json) (key : string) (dflt : json) : exn + json :=
  match d with
  | JDict items => inr (default dflt (dict_lookup key items))
  | _ => inl (AttributeError ("'" +:+ type_name d +:+ "' object has no attribute 'get'"))
  end.

(** [v == s] for a [str] constant [s]. *)
Definition eq_str (v : json) (s : string) : bool :=
  match v with
  | JStr t => String.eqb t s
  | _ => false
  end.

(** [str(v)] for the hashable values [json.loads] returns; a [list] or a
    [dict] is unhashable and has none here. *)
Definition hashable_str (v : json) : option string :=
  match v with
  | JNull => Some "None"
  | JBool true => Some "True"
  | JBool false => Some "False"
  | JInt z => Some (pretty z)
  | JFloat repr =>
      Some (if String.eqb repr "NaN" then "nan"
            else if String.eqb repr "Infinity" then "inf"
            else if String.eqb repr "-Infinity" then "-inf"
            else repr)
  | JStr s => Some s
  | JList _ | JDict _ => None
  end.

(** [list(s)] for a [str]: its characters. *)
Fixpoint chars (s : string) : list json :=
  match s with
  | EmptyString => []
  | String c rest => JStr (String c EmptyString) :: chars rest
  end.

(** How CPython names a function in the error of a call: the qualified
    name, after the module unless that is [builtins]. *)
Definition function_str (f : method) : string :=
  if String.eqb (__module__ f) "builtins" then qualname f +:+ "()"
  else __module__ f +:+ "." +:+ qualname f +:+ "()".

(** The positional arguments [f] receives when it is called with a starred
    [args]. *)
Definition star (f : method) (args : json) : exn + list json :=
  match args with
  | JList items => inr items
  | JStr s => inr (chars s)
  | JDict items => inr (map (fun kv => JStr (fst kv)) items)
  | _ => inl (TypeError (function_str f +:+ " argument after * must be an iterable, not "
                           +:+ type_name args))
  end.

(** [json.loads] on a [str]: the value it returns, or [None] when it
    raises; [decode_exn] is then the exception: a [JSONDecodeError] on a text
    that is not JSON, a [ValueError] on an integer with more digits than
    [int] converts, a [RecursionError] on a nesting that is too deep. *)
Record decoder : Type := MkDecoder {
  decode :> string -> option json;
  decode_exn : string -> exn
}.

(** ** The class [Agent] *)

Section Agent.

(** [json.loads] *)
Variable json_loads : decoder.

(** [type(self)] *)
Variable cls : AgentClass.

(** [json.loads(rows[0].state)]: the value, or [None] when it raises.  On
    a NULL column the argument is [None] and [json.loads] raises
    [TypeError]. *)
Definition loads_row (st : option string) : option json :=
  match st with
  | Some text => json_loads text
  | None => None
  end.

(** What [json.loads(rows[0].state)] raises when it returns no value. *)
Definition row_exn (st : option string) : exn :=
  match st with
  | Some text => decode_exn json_loads text
  | None => TypeError "the JSON object must be str, bytes or bytearray, not NoneType"
  end.

(** Lines 129-139 of [_set_state_internal]: the attribute, then the two
    rows. *)
Definition persist_state (state : pyval) : M unit :=
  set_cache (Some state) >>
  state_json <- lift (py_dumps state) ;;
  sql_upsert STATE_ROW_ID state_json >>
  sql_upsert STATE_WAS_CHANGED (json_dumps (JBool true)).

Definition state_message (j : json) : json :=
  JDict [("type", JStr CF_AGENT_STATE); ("state", j)].

(** The body of the loop of [_set_state_internal]:
    [if source_ws is not None and ws == source_ws: continue], then
    [ws.send(msg)]. *)
Definition send_state (msg : string) (source_ws : option nat) (ws : nat) : M unit :=
  match source_ws with
  | Some src => if Nat.eqb ws src then ret tt else ws_send ws msg
  | None => ws_send ws msg
  end.

(** Lines 141-145 of [_set_state_internal]: the fan-out. *)
Definition broadcast_state (state : pyval) (source_ws : option nat) : M unit :=
  msg <- lift (dumps_in state_message state) ;;
  wss <- getWebSockets ;;
  for_each wss (send_state msg source_ws).

Definition _set_state_internal (state : pyval) (source_ws : option nat) : M unit :=
  persist_state state >>
  broadcast_state state source_ws >>
  on_state_changed cls state.

Definition set_state (state : pyval) : M unit :=
  _set_state_internal state None.

(** The property [state].  The result [None] is the sentinel [_UNSET]
    itself, [Some PyNone] is Python's [None]. *)
Definition state : M (option pyval) :=
  c <- get_cache ;;
  match c with
  | Some v => ret (Some v)
  | None =>
      was_changed_rows <- sql_select STATE_WAS_CHANGED ;;
      if (0 <? length was_changed_rows)%nat then
        rows <- sql_select STATE_ROW_ID ;;
        match rows with
        | row0 :: _ =>
            match loads_row row0 with
            | Some j => set_cache (Some (PJson j)) >> ret (Some (PJson j))
            | None =>
                if is_instance ["JSONDecodeError"; "TypeError"] (row_exn row0) then
                  match initial_state cls with
                  | Some d =>
                      set_cache (Some d) >>
                      _set_state_internal d None >>
                      get_cache
                  | None =>
                      sql_delete STATE_ROW_ID >>
                      sql_delete STATE_WAS_CHANGED >>
                      ret (Some PyNone)
                  end
                else raise (row_exn row0)
            end
        | [] => get_cache
        end
      else
        match initial_state cls with
        | None => ret (Some PyNone)
        | Some d => _set_state_internal d None >> ret (Some d)
        end
  end.

Definition self : self_api := SelfApi state set_state.

Definition identity_message (w_id : string) : json :=
  JDict [("type", JStr CF_AGENT_IDENTITY);
         ("name", JStr w_id);
         ("agent", JStr (_camel_to_kebab (__name__ cls)))].

Definition snapshot_body (j : json) : json :=
  JDict [("agent", JStr (_camel_to_kebab (__name__ cls))); ("state", j)].

(** [upgrade and upgrade.lower() == "websocket"] *)
Definition wants_websocket (req : request) : bool :=
  match upgrade_header req with
  | Some u => negb (String.eqb u "") && String.eqb (lower u) "websocket"
  | None => false
  end.

Definition fetch (req : request) : M response :=
  if wants_websocket req then
    pair <- WebSocketPair_new ;;
    let client := fst pair in
    let server := snd pair in
    acceptWebSocket server >>
    name <- (fun w => Ok (ctx_id w) w) ;;
    ws_send server (json_dumps (identity_message name)) >>
    current <- state ;;
    (if is_not_None current
     then msg <- lift (dumps_in state_message (of_slot current)) ;;
          ws_send server msg
     else ret tt) >>
    on_connect cls server >>
    ret (Response 101 None [] (Some client))
  else
    current <- state ;;
    text <- lift (dumps_in snapshot_body (of_slot current)) ;;
    ret (Response 200 (Some text) [("Content-Type", "application/json")] None).

(** [_get_callable_methods]: the public names whose class attribute carries
    a true [_agent_callable]. *)
Definition _get_callable_methods : gmap string method :=
  omap (fun a => match a with
                 | Function m => if _agent_callable m then Some m else None
                 | Other => None
                 end)
       (filter (fun kv => String.prefix "_" (fst kv) = false) (members cls)).

(** [method_name in callables]: only a [str] equals a key. *)
Definition find_callable (method_name : json) : option method :=
  match method_name with
  | JStr name => _get_callable_methods !! name
  | _ => None
  end.

Definition rpc_error (rpc_id : json) (text : string) : json :=
  JDict [("type", JStr RPC); ("id", rpc_id); ("success", JBool false);
         ("error", JStr text)].

Definition rpc_result (rpc_id result : json) : json :=
  JDict [("type", JStr RPC); ("id", rpc_id); ("success", JBool true);
         ("result", result)].

Definition _handle_rpc (ws : nat) (parsed : json) : M unit :=
  rpc_id <- lift (py_get parsed "id" JNull) ;;
  method_name <- lift (py_get parsed "method" JNull) ;;
  args <- lift (py_get parsed "args" (JList [])) ;;
  match hashable_str method_name with
  | None => raise (TypeError ("unhashable type: '" +:+ type_name method_name +:+ "'"))
  | Some name_text =>
      match find_callable method_name with
      | None =>
          ws_send ws (json_dumps
            (rpc_error rpc_id ("Method " +:+ name_text +:+ " is not callable")))
      | Some m =>
          try_except
            (argv <- lift (star m args) ;;
             result <- body m self argv ;;
             text <- lift (dumps_in (rpc_result rpc_id) result) ;;
             ws_send ws text)
            (fun e => ws_send ws (json_dumps (rpc_error rpc_id (exn_str e))))
      end
  end.

Definition state_error_message (text : string) : json :=
  JDict [("type", JStr CF_AGENT_STATE_ERROR); ("error", JStr text)].

Definition webSocketMessage (ws : nat) (message : ws_message) : M unit :=
  match message with
  | Text s =>
      match json_loads s with
      | None =>
          if is_instance ["JSONDecodeError"] (decode_exn json_loads s)
          then on_message cls ws message
          else raise (decode_exn json_loads s)
      | Some parsed =>
          msg_type <- lift (py_get parsed "type" JNull) ;;
          if eq_str msg_type CF_AGENT_STATE then
            new_state <- lift (py_get parsed "state" JNull) ;;
            try_except
              (_set_state_internal (PJson new_state) (Some ws))
              (fun e => ws_send ws (json_dumps (state_error_message (exn_str e))))
          else if eq_str msg_type RPC then
            _handle_rpc ws parsed
          else
            on_message cls ws message
      end
  | Binary _ => on_message cls ws message
  end.

Definition webSocketClose (ws : nat) (code : Z) (reason : string) (was_clean : bool)
  : M unit :=
  on_close cls ws code reason was_clean.

Definition webSocketError (ws : nat) (error : exn) : M unit :=
  on_error cls ws error.

(** [__init__]: a fresh instance over the same storage, as after the
    Durable Object was evicted or hibernated. *)
Definition __init__ : M unit := set_cache None.

End Agent.

(** ** A decoder to run the model on

    The agent is verified for every [json_loads].  To evaluate it on
    concrete frames and rows, [loads] decodes the JSON texts that have no
    fraction, exponent or [\u] escape, and whose nesting stays below the
    recursion limit, as [json.loads] does, and raises [ValueError] where an
    integer of such a text has more than 4300 digits.  On every other text
    it reports a [JSONDecodeError], whose message it does not compute (the
    agent never reads it). *)
Module Decoder.

(** Why a text is refused: it is not JSON (or not one of the texts above),
    or an integer in it has [n] digits, more than [int] converts. *)
Inductive failure : Type :=
  | Syntax
  | Digits (n : nat).

Definition need {A} (o : option A) : failure + A :=
  match o with
  | Some a => inr a
  | None => inl Syntax
  end.

Definition is_ws (c : ascii) : bool :=
  let n := code c in ((n =? 32) || (n =? 9) || (n =? 10) || (n =? 13))%N.

Fixpoint skip_ws (s : string) : string :=
  match s with
  | String c rest => if is_ws c then skip_ws rest else s
  | EmptyString => s
  end.

Definition unescape (c : ascii) : option ascii :=
  let n := code c in
  if ((n =? 34) || (n =? 92) || (n =? 47))%N then Some c
  else if (n =? 98)%N then Some (ascii_of_N 8)
  else if (n =? 102)%N then Some (ascii_of_N 12)
  else if (n =? 110)%N then Some (ascii_of_N 10)
  else if (n =? 114)%N then Some (ascii_of_N 13)
  else if (n =? 116)%N then Some (ascii_of_N 9)
  else None.

Definition consed (c : ascii) (r : option (string * string)) : option (string * string) :=
  match r with
  | Some (text, rest) => Some (String c text, rest)
  | None => None
  end.

(** The characters after an opening quote, up to the closing one. *)
Fixpoint string_tail (s : string) : option (string * string) :=
  match s with
  | EmptyString => None
  | String c rest =>
      if (code c =? 34)%N then Some (EmptyString, rest)
      else if (code c =? 92)%N then
        match rest with
        | String e rest' =>
            match unescape e with
            | Some d => consed d (string_tail rest')
            | None => None
            end
        | EmptyString => None
        end
      else if (code c <? 32)%N then None
      else consed c (string_tail rest)
  end.

Fixpoint digits (acc : Z) (s : string) : Z * string :=
  match s with
  | String c rest =>
      if is_digit c then digits (10 * acc + Z.of_N (code c - 48)) rest else (acc, s)
  | EmptyString => (acc, s)
  end.

(** [sys.get_int_max_str_digits()], by default. *)
Definition max_str_digits : nat := 4300.

(** An integer without sign: [0], or a digit from 1 to 9 and more digits;
    refused when a fraction or an exponent follows, and too long for [int]
    beyond [max_str_digits] digits. *)
Definition natural (s : string) : failure + (Z * string) :=
  match s with
  | String c rest =>
      if is_digit c then
        let r := if (code c =? 48)%N then (0%Z, rest) else digits 0 s in
        let n := (String.length s - String.length (snd r))%nat in
        match snd r with
        | String d _ =>
            if ((code d =? 46) || (code d =? 101) || (code d =? 69))%N then inl Syntax
            else if (max_str_digits <? n)%nat then inl (Digits n) else inr r
        | EmptyString =>
            if (max_str_digits <? n)%nat then inl (Digits n) else inr r
        end
      else inl Syntax
  | EmptyString => inl Syntax
  end.

Definition literal (word : string) (v : json) (s : string) : option (json * string) :=
  if String.prefix word s
  then Some (v, String.substring (String.length word)
                  (String.length s - String.length word) s)
  else None.

Definition scalar (s : string) : failure + (json * string) :=
  match s with
  | String c rest =>
      let n := code c in
      if (n =? 34)%N then
        match string_tail rest with
        | Some (text, rest') => inr (JStr text, rest')
        | None => inl Syntax
        end
      else if (n =? 110)%N then need (literal "null" JNull s)
      else if (n =? 116)%N then need (literal "true" (JBool true) s)
      else if (n =? 102)%N then need (literal "false" (JBool false) s)
      else if (n =? 78)%N then need (literal "NaN" (JFloat "NaN") s)
      else if (n =? 73)%N then need (literal "Infinity" (JFloat "Infinity") s)
      else if (n =? 45)%N then
        match literal "-Infinity" (JFloat "-Infinity") s with
        | Some r => inr r
        | None =>
            match natural rest with
            | inr (z, rest') => inr (JInt (- z), rest')
            | inl f => inl f
            end
        end
      else
        match natural s with
        | inr (z, rest') => inr (JInt z, rest')
        | inl f => inl f
        end
  | EmptyString => inl Syntax
  end.

(** A later occurrence of a key replaces the value of the earlier one. *)
Fixpoint dict_set (key : string) (v : json) (items : list (string * json))
  : list (string * json) :=
  match items with
  | [] => [(key, v)]
  | (k, old) :: rest =>
      if String.eqb k key then (k, v) :: rest else (k, old) :: dict_set key v rest
  end.

Definition head_is (n : N) (s : string) : option string :=
  match s with
  | String c rest => if (code c =? n)%N then Some rest else None
  | EmptyString => None
  end.

(** [value] reads one value; [items] and [pairs] read the rest of an
    array and of an object after their first element.  [fuel] bounds the
    nesting and the number of elements. *)
Fixpoint value (fuel : nat) (s : string) : failure + (json * string) :=
  match fuel with
  | O => inl Syntax
  | S n =>
      let s := skip_ws s in
      match head_is 91 s with
      | Some rest =>
          match head_is 93 (skip_ws rest) with
          | Some rest' => inr (JList [], rest')
          | None =>
              match value n rest with
              | inr (v, rest') => items n [v] rest'
              | inl f => inl f
              end
          end
      | None =>
          match head_is 123 s with
          | Some rest =>
              match head_is 125 (skip_ws rest) with
              | Some rest' => inr (JDict [], rest')
              | None => pairs n [] (skip_ws rest)
              end
          | None => scalar s
          end
      end
  end
with items (fuel : nat) (acc : list json) (s : string) : failure + (json * string) :=
  match fuel with
  | O => inl Syntax
  | S n =>
      let s := skip_ws s in
      match head_is 93 s with
      | Some rest => inr (JList (rev acc), rest)
      | None =>
          match head_is 44 s with
          | Some rest =>
              match value n rest with
              | inr (v, rest') => items n (v :: acc) rest'
              | inl f => inl f
              end
          | None => inl Syntax
          end
      end
  end
with pairs (fuel : nat) (acc : list (string * json)) (s : string)
  : failure + (json * string) :=
  match fuel with
  | O => inl Syntax
  | S n =>
      match head_is 34 s with
      | Some rest =>
          match string_tail rest with
          | Some (key, rest') =>
              match head_is 58 (skip_ws rest') with
              | Some rest'' =>
                  match value n rest'' with
                  | inr (v, rest3) =>
                      let acc' := dict_set key v acc in
                      let rest4 := skip_ws rest3 in
                      match head_is 125 rest4 with
                      | Some rest5 => inr (JDict acc', rest5)
                      | None =>
                          match head_is 44 rest4 with
                          | Some rest5 => pairs n acc' (skip_ws rest5)
                          | None => inl Syntax
                          end
                      end
                  | inl f => inl f
                  end
              | None => inl Syntax
              end
          | None => inl Syntax
          end
      | None => inl Syntax
      end
  end.

(** The whole text is one value. *)
Definition scan (s : string) : failure + json :=
  match value (S (String.length s)) s with
  | inr (v, rest) =>
      match skip_ws rest with
      | EmptyString => inr v
      | _ => inl Syntax
      end
  | inl f => inl f
  end.

Definition loads : decoder :=
  MkDecoder
    (fun s => match scan s with
              | inr v => Some v
              | inl _ => None
              end)
    (fun s => match scan s with
              | inl (Digits n) =>
                  ValueError ("Exceeds the limit (" +:+ pretty max_str_digits
                                +:+ " digits) for integer string conversion: value has "
                                +:+ pretty n
                                +:+ " digits; use sys.set_int_max_str_digits() to increase the limit")
              | _ => JSONDecodeError "Expecting value"
              end).

End Decoder.

(** ** The classes of the repository *)

Definition pass {A} (_ : A) : M unit := ret tt.

(** The names [dir] reports on an [Agent] and that resolve on the class. *)
Definition Agent_members : gmap string attr :=
  list_to_map (map (fun name => (name, Other))
    ["_get_callable_methods"; "_handle_rpc"; "_init_tables"; "_set_state_internal";
     "fetch"; "initial_state"; "on_close"; "on_connect"; "on_error"; "on_message";
     "on_state_changed"; "set_state"; "sql"; "state"; "webSocketClose";
     "webSocketError"; "webSocketMessage"]).

(** [Agent] itself: no initial state, every override point is [pass]. *)
Definition Agent : AgentClass := {|
  __name__ := "Agent";
  initial_state := None;
  members := Agent_members;
  on_connect := pass;
  on_message := fun _ => pass;
  on_close := fun _ _ _ => pass;
  on_error := fun _ => pass;
  on_state_changed := pass
|}.

(** [CounterAgent.reset] of entry.py. *)
Definition reset_body (self : self_api) (args : list json) : M pyval :=
  match args with
  | [] =>
      self_set_state self
        (PJson (JDict [("count", JInt 0); ("last_action", JStr "reset")])) >>
      ret (PJson (JInt 0))
  | _ =>
      raise (TypeError ("CounterAgent.reset() takes 1 positional argument but "
                          +:+ pretty (S (length args)) +:+ " were given"))
  end.

(** [CounterAgent] of entry.py.  Its overrides of the hooks only print.  Of
    its four callables only [reset] is embedded: [increment], [decrement] and
    [get_count] index and add to whatever the state holds (floats included)
    and are left out of [members], so this class answers for [reset] and for
    names that are not callable, not for those three. *)
Definition CounterAgent : AgentClass := {|
  __name__ := "CounterAgent";
  initial_state :=
    Some (PJson (JDict [("count", JInt 0); ("last_action", JNull)]));
  members :=
    <["reset" := Function (callable (Some "Reset the counter to zero") false
                             (def "entry" "CounterAgent.reset" reset_body))]> Agent_members;
  on_connect := pass;
  on_message := fun _ => pass;
  on_close := fun _ _ _ => pass;
  on_error := fun _ => pass;
  on_state_changed := pass
|}.

(** A Durable Object that has never run: no row, no socket. *)
Definition fresh (id : string) : world := World None ∅ [] ∅ [] 0 id.

(** ** Vocabulary of the properties *)

(** The world right after a write of [v], serialized as [text], was
    persisted and its state message was sent to [recipients], in that
    order. *)
Definition written (v : pyval) (text msg : string) (recipients : list nat) (w : world)
  : world :=
  with_outbox (outbox w ++ map (fun ws => (ws, msg)) recipients)
    (with_table (<[STATE_WAS_CHANGED := Some (json_dumps (JBool true))]>
                   (<[STATE_ROW_ID := Some text]> (table w)))
       (with_cache (Some v) w)).

(** The sockets a broadcast excluding [source_ws] goes to, in the order of
    [getWebSockets()]. *)
Definition recipients (source_ws : option nat) (wss : list nat) : list nat :=
  filter (fun ws => Some ws <> source_ws) wss.

(** Every socket of [wss] that the broadcast sends on accepts the frame. *)
Definition healthy (w : world) (source_ws : option nat) (wss : list nat) : Prop :=
  forall ws, ws ∈ wss -> Some ws <> source_ws -> broken w !! ws = None.

(** The row of the current state and the row of the marker are both there
    or both missing. *)
Definition paired (w : world) : Prop :=
  is_Some (table w !! STATE_ROW_ID) <-> is_Some (table w !! STATE_WAS_CHANGED).

(** A computation keeps the two rows paired, however it ends. *)
Definition keeps_paired {A} (m : M A) : Prop :=
  forall w, paired w -> paired (world_of (m w)).

(** The override points of a class keep the rows paired (as [pass] does). *)
Record hooks_keep_paired (cls : AgentClass) : Prop := {
  connect_keeps : forall ws, keeps_paired (on_connect cls ws);
  message_keeps : forall ws m, keeps_paired (on_message cls ws m);
  close_keeps : forall ws c r k, keeps_paired (on_close cls ws c r k);
  error_keeps : forall ws e, keeps_paired (on_error cls ws e);
  changed_keeps : forall v, keeps_paired (on_state_changed cls v)
}.

(** The functions of a class reach the table through [self.state] and
    [self.set_state] only. *)
Definition methods_keep_paired (cls : AgentClass) : Prop :=
  forall name m api argv,
    members cls !! name = Some (Function m) ->
    keeps_paired (self_state api) ->
    (forall v, keeps_paired (self_set_state api v)) ->
    keeps_paired (body m api argv).

(** What can happen to an instance: construction (again, after an
    eviction), a read or a write of the state, and the four callbacks of the
    runtime. *)
Inductive event : Type :=
  | EInit
  | EState
  | ESetState (v : pyval)
  | EFetch (req : request)
  | EMessage (ws : nat) (m : ws_message)
  | EClose (ws : nat) (code : Z) (reason : string) (was_clean : bool)
  | EError (ws : nat) (e : exn).

Definition step (json_loads : decoder) (cls : AgentClass)
    (ev : event) (w : world) : world :=
  match ev with
  | EInit => world_of (__init__ w)
  | EState => world_of (state json_loads cls w)
  | ESetState v => world_of (set_state cls v w)
  | EFetch req => world_of (fetch json_loads cls req w)
  | EMessage ws m => world_of (webSocketMessage json_loads cls ws m w)
  | EClose ws c r k => world_of (webSocketClose cls ws c r k w)
  | EError ws e => world_of (webSocketError cls ws e w)
  end.

Definition run (json_loads : decoder) (cls : AgentClass)
    (evs : list event) (w : world) : world :=
  fold_left (fun w ev => step json_loads cls ev w) evs w.

(** ** Worlds and values to evaluate on *)

(** The default of [CounterAgent]. *)
Definition counter0 : json := JDict [("count", JInt 0); ("last_action", JNull)].

(** A Python [set]: [json.dumps] has no encoder for it. *)
Definition a_set : pyval := PNotJson (not_serializable "set").

(** What [send] raises on a socket the peer has closed. *)
Definition closed_socket : exn := Exn "JsException" "Error: WebSocket is closed".

(** A new instance with one socket attached (it woke up from hibernation)
    and nothing stored. *)
Definition w_one_socket : world := World None ∅ [1] ∅ [] 2 "a".

(** An instance that holds the state [7], not yet stored, no socket. *)
Definition w_cached : world := World (Some (PJson (JInt 7))) ∅ [] ∅ [] 0 "a".

(** Three sockets attached, the second one closed by its peer. *)
Definition w_second_closed : world :=
  World None ∅ [1; 3; 5] {[3 := closed_socket]} [] 6 "a".


(** A new instance over a table whose state row does not parse, one socket
    attached. *)
Definition w_corrupt : world :=
  World None
    (<[STATE_WAS_CHANGED := Some "true"]> (<[STATE_ROW_ID := Some "{oops"]> ∅))
    [1] ∅ [] 2 "a".


(** [CounterAgent.reset] as [_get_callable_methods] finds it. *)
Definition reset_method : method :=
  callable (Some "Reset the counter to zero") false
    (def "entry" "CounterAgent.reset" reset_body).

(** The state [reset] stores. *)
Definition counter_reset : json :=
  JDict [("count", JInt 0); ("last_action", JStr "reset")].

(** Three sockets attached, all open. *)
Definition w_three_sockets : world := World None ∅ [1; 3; 5] ∅ [] 6 "a".

(** The frame a client sends to push the state [5]. *)
Definition push_five : string := dq "{'type': 'cf_agent_state', 'state': 5}".

(** A session of [CounterAgent]: a client connects, calls [reset], pushes
    a state; the instance is evicted and built again, reads its state, and
    is asked for a snapshot. *)
Definition session : list event :=
  [EFetch (Request (Some "websocket"));
   EMessage 1 (Text (dq "{'type': 'rpc', 'id': '1', 'method': 'reset', 'args': []}"));
   EMessage 1 (Text push_five);
   EInit; EState;
   EFetch (Request None)].

(** ** The entry point of the worker (entry.py) *)

(** [s.split(sep)] for a separator of one character: the pieces between
    the occurrences of [sep], the empty ones included. *)
Fixpoint str_split (sep : ascii) (s : string) : list string :=
  match s with
  | EmptyString => [EmptyString]
  | String c rest =>
      if Ascii.eqb c sep then EmptyString :: str_split sep rest
      else match str_split sep rest with
           | p :: ps => String c p :: ps
           | [] => [String c EmptyString]
           end
  end.

(** What [Default.fetch] answers with: the test page, the response of the
    Durable Object [COUNTER_AGENT.idFromName(name)] to the same request, or
    the 404 response. *)
Inductive route : Type :=
  | TestPage
  | ToAgent (name : string)
  | NotFound.

Module Default.

(** [parts[2] if len(parts) > 2 and parts[2] else 'default'] *)
Definition instance_name (parts : list string) : string :=
  match parts with
  | _ :: _ :: p2 :: _ => if negb (String.eqb p2 "") then p2 else "default"
  | _ => "default"
  end.

(** [fetch] as a function of [urlparse(request.url).path]. *)
Definition fetch (path : string) : route :=
  if String.eqb path "/" || String.eqb path "" then TestPage
  else if String.prefix "/agent" path then ToAgent (instance_name (str_split "/" path))
  else NotFound.

End Default.

(** ** Vocabulary of further properties *)

(** Every character of [s] satisfies [p]. *)
Fixpoint every (p : ascii -> bool) (s : string) : bool :=
  match s with
  | EmptyString => true
  | String c rest => p c && every p rest
  end.

(** The characters [str.lower] changes. *)
Definition is_capital (c : ascii) : bool :=
  is_upper c || (in_range 192 222 c && negb (code c =? 215)%N).

(** [s.replace(x, '')] for one character [x]. *)
Fixpoint without (x : ascii) (s : string) : string :=
  match s with
  | EmptyString => EmptyString
  | String c rest => if Ascii.eqb c x then without x rest else String c (without x rest)
  end.

(** [s[n:]] *)
Fixpoint str_drop (n : nat) (s : string) : string :=
  match n, s with
  | S k, String _ rest => str_drop k rest
  | _, _ => s
  end.

(** A computation keeps the property [I] of worlds, however it ends. *)
Definition keeps (I : world -> Prop) {A} (m : M A) : Prop :=
  forall w, I w -> I (world_of (m w)).

(** The override points of a class keep [I]. *)
Record hooks_keep (I : world -> Prop) (cls : AgentClass) : Prop := {
  keep_connect : forall ws, keeps I (on_connect cls ws);
  keep_message : forall ws m, keeps I (on_message cls ws m);
  keep_close : forall ws c r k, keeps I (on_close cls ws c r k);
  keep_error : forall ws e, keeps I (on_error cls ws e);
  keep_changed : forall v, keeps I (on_state_changed cls v)
}.

(** The functions of a class keep [I] when what they reach through [self]
    does. *)
Definition methods_keep (I : world -> Prop) (cls : AgentClass) : Prop :=
  forall name m api argv,
    members cls !! name = Some (Function m) ->
    keeps I (self_state api) ->
    (forall v, keeps I (self_set_state api v)) ->
    keeps I (body m api argv).

(** [I] looks at [self._state] and at the table only, and survives each of
    the changes the agent makes to them: the construction of an instance, the
    load of the stored state, a write, a write that does not serialize, and
    the deletion of both rows. *)
Record agent_closed (json_loads : decoder) (I : world -> Prop) : Prop := {
  closed_frame : forall w w', cache w' = cache w -> table w' = table w -> I w -> I w';
  closed_init : forall w, I w -> I (with_cache None w);
  closed_load : forall w p j,
    I w -> is_Some (table w !! STATE_WAS_CHANGED) ->
    table w !! STATE_ROW_ID = Some p -> loads_row json_loads p = Some j ->
    I (with_cache (Some (PJson j)) w);
  closed_write : forall w j,
    I w ->
    I (with_table (<[STATE_WAS_CHANGED := Some (json_dumps (JBool true))]>
                     (<[STATE_ROW_ID := Some (json_dumps j)]> (table w)))
         (with_cache (Some (PJson j)) w));
  closed_fail : forall w e, I w -> I (with_cache (Some (PNotJson e)) w);
  closed_recover : forall w p,
    I w -> cache w = None ->
    table w !! STATE_ROW_ID = Some p -> loads_row json_loads p = None ->
    I (with_table (delete STATE_WAS_CHANGED (delete STATE_ROW_ID (table w))) w)
}.

(** The rows of [w] other than the two the agent reserves are those of
    [w0]. *)
Definition same_user_rows (w0 w : world) : Prop :=
  forall id, id <> STATE_ROW_ID -> id <> STATE_WAS_CHANGED ->
    table w !! id = table w0 !! id.


(** A pattern whose replacement is the matched text with hyphens added:
    without the hyphens, the replacement and what follows the match are the
    subject. *)
Definition hyphenating (pat : string -> option (string * nat)) : Prop :=
  forall s repl n, pat s = Some (repl, n) ->
    (1 <= n)%nat /\
    without "-" repl +:+ without "-" (str_drop n s) = without "-" s.

(** A request to call [reset], with any id and arguments. *)
Definition reset_call (rpc_id : json) (args : list json) : json :=
  JDict [("type", JStr RPC); ("id", rpc_id); ("method", JStr "reset");
         ("args", JList args)].

(** A subclass to evaluate on (not one of the repository): its callable
    [tags] takes no argument and returns a [set]. *)
Definition tags_body (self : self_api) (args : list json) : M pyval :=
  match args with
  | [] => ret a_set
  | _ =>
      raise (TypeError ("TagAgent.tags() takes 1 positional argument but "
                          +:+ pretty (S (length args)) +:+ " were given"))
  end.

Definition TagAgent : AgentClass := {|
  __name__ := "TagAgent";
  initial_state := None;
  members :=
    <["tags" := Function (callable None false (def "probe" "TagAgent.tags" tags_body))]>
      Agent_members;
  on_connect := pass;
  on_message := fun _ => pass;
  on_close := fun _ _ _ => pass;
  on_error := fun _ => pass;
  on_state_changed := pass
|}.

(** As [w_corrupt], but the attached socket was closed by its peer. *)
Definition w_corrupt_closed : world :=
  World None
    (<[STATE_WAS_CHANGED := Some "true"]> (<[STATE_ROW_ID := Some "{oops"]> ∅))
    [1] {[1 := closed_socket]} [] 2 "a".

(** [s * n] *)
Fixpoint times (s : string) (n : nat) : string :=
  match n with
  | O => EmptyString
  | S k => s +:+ times s k
  end.

(** A new instance over a table whose state row is an integer of 4301
    digits. *)
Definition w_long_integer : world :=
  World None
    (<[STATE_WAS_CHANGED := Some "true"]> (<[STATE_ROW_ID := Some (times "9" 4301)]> ∅))
    [] ∅ [] 0 "a".

(** A new instance over a table that holds the marker row only. *)
Definition w_marker_only : world :=
  World None {[STATE_WAS_CHANGED := Some "true"]} [] ∅ [] 0 "a".

(** An instance over a table that also holds a row of the application. *)
Definition w_user_row : world :=
  World None {["note" := Some "remember"]} [] ∅ [] 0 "a".

(** ** Computations *)

Lemma bind_Ok {A B} (m : M A) (k : A -> M B) w a w' :
  m w = Ok a w' -> bind m k w = k a w'.
Proof. intros H. unfold bind. rewrite H. reflexivity. Qed.

Lemma bind_Raise {A B} (m : M A) (k : A -> M B) w e w' :
  m w = Raise e w' -> bind m k w = Raise e w'.
Proof. intros H. unfold bind. rewrite H. reflexivity. Qed.

Lemma try_Ok {A} (m : M A) h w a w' :
  m w = Ok a w' -> try_except m h w = Ok a w'.
Proof. intros H. unfold try_except. rewrite H. reflexivity. Qed.

Lemma try_Raise {A} (m : M A) h w e w' :
  m w = Raise e w' -> try_except m h w = h e w'.
Proof. intros H. unfold try_except. rewrite H. reflexivity. Qed.

Lemma ws_send_ok ws text w :
  broken w !! ws = None ->
  ws_send ws text w = Ok tt (with_outbox (outbox w ++ [(ws, text)]) w).
Proof. intros H. unfold ws_send. rewrite H. reflexivity. Qed.

Lemma ws_send_broken ws text w e :
  broken w !! ws = Some e -> ws_send ws text w = Raise e w.
Proof. intros H. unfold ws_send. rewrite H. reflexivity. Qed.

(** A send changes nothing but the outbox. *)
Lemma ws_send_frame ws text w :
  cache (world_of (ws_send ws text w)) = cache w /\
  table (world_of (ws_send ws text w)) = table w /\
  sockets (world_of (ws_send ws text w)) = sockets w.
Proof. unfold ws_send. destruct (broken w !! ws); simpl; auto. Qed.

(** ** The identity formatter *)

(** C6: [_camel_to_kebab] is a function of its argument alone and maps the
    three names of the specification to [counter-agent], [agent] and
    [http-server-agent], character for character. *)
Theorem camel_to_kebab_examples :
  _camel_to_kebab "CounterAgent" = "counter-agent" /\
  _camel_to_kebab "Agent" = "agent" /\
  _camel_to_kebab "HTTPServerAgent" = "http-server-agent".
Proof. repeat split; vm_compute; reflexivity. Qed.

(** ** Writing the state *)

Lemma persist_state_ok j w :
  persist_state (PJson j) w
  = Ok tt (with_table (<[STATE_WAS_CHANGED := Some (json_dumps (JBool true))]>
                         (<[STATE_ROW_ID := Some (json_dumps j)]> (table w)))
             (with_cache (Some (PJson j)) w)).
Proof. reflexivity. Qed.

Lemma persist_state_fail e w :
  persist_state (PNotJson e) w = Raise e (with_cache (Some (PNotJson e)) w).
Proof. reflexivity. Qed.

Lemma recipients_cons_skip src ws wss :
  Some ws = src -> recipients src (ws :: wss) = recipients src wss.
Proof.
  intros H. unfold recipients. rewrite filter_cons.
  destruct (decide (Some ws <> src)) as [Hne | _]; [contradiction | reflexivity].
Qed.

Lemma recipients_cons_keep src ws wss :
  Some ws <> src -> recipients src (ws :: wss) = ws :: recipients src wss.
Proof.
  intros H. unfold recipients. rewrite filter_cons.
  destruct (decide (Some ws <> src)) as [_ | Hn]; [reflexivity | contradiction].
Qed.

(** On a socket the broadcast skips, the loop body does nothing; on any
    other it is [ws.send]. *)
Lemma send_state_skip msg src ws :
  Some ws = src -> send_state msg src ws = ret tt.
Proof.
  intros <-. unfold send_state. rewrite Nat.eqb_refl. reflexivity.
Qed.

Lemma send_state_send msg src ws :
  Some ws <> src -> send_state msg src ws = ws_send ws msg.
Proof.
  intros H. unfold send_state. destruct src as [s |]; [| reflexivity].
  destruct (Nat.eqb ws s) eqn:E; [| reflexivity].
  apply Nat.eqb_eq in E. subst. contradiction.
Qed.

Lemma with_outbox_twice o o' w : with_outbox o' (with_outbox o w) = with_outbox o' w.
Proof. reflexivity. Qed.

(** The loop over healthy sockets sends to the recipients, in order. *)
Lemma for_each_send_ok msg src wss : forall w,
  healthy w src wss ->
  for_each wss (send_state msg src) w
  = Ok tt (with_outbox (outbox w ++ map (fun ws => (ws, msg)) (recipients src wss)) w).
Proof.
  induction wss as [| ws wss IH]; intros w Hh.
  - simpl. unfold ret, with_outbox. rewrite app_nil_r. destruct w; reflexivity.
  - simpl. destruct (decide (Some ws = src)) as [Heq | Hne].
    + rewrite (send_state_skip _ _ _ Heq), (recipients_cons_skip _ _ _ Heq).
      unfold bind, ret. apply IH.
      intros x Hx. apply Hh. right. exact Hx.
    + rewrite (send_state_send _ _ _ Hne), (recipients_cons_keep _ _ _ Hne).
      assert (Hb : broken w !! ws = None) by (apply Hh; [left | exact Hne]).
      rewrite (bind_Ok _ _ _ _ _ (ws_send_ok ws msg w Hb)).
      rewrite IH.
      * simpl. rewrite <- app_assoc. reflexivity.
      * intros x Hx Hxs. simpl. apply Hh; [right; exact Hx | exact Hxs].
Qed.

(** The loop stops at the first recipient whose send raises: the sockets
    before it have the frame, the sockets after it do not. *)
Lemma for_each_send_broken msg src before bad after e : forall w,
  healthy w src before ->
  Some bad <> src ->
  broken w !! bad = Some e ->
  for_each (before ++ bad :: after) (send_state msg src) w
  = Raise e (with_outbox (outbox w ++ map (fun ws => (ws, msg)) (recipients src before)) w).
Proof.
  induction before as [| ws wss IH]; intros w Hh Hbad He.
  - simpl. rewrite (send_state_send _ _ _ Hbad).
    rewrite (bind_Raise _ _ _ _ _ (ws_send_broken bad msg w e He)).
    unfold with_outbox. rewrite app_nil_r. destruct w; reflexivity.
  - simpl. destruct (decide (Some ws = src)) as [Heq | Hne].
    + rewrite (send_state_skip _ _ _ Heq), (recipients_cons_skip _ _ _ Heq).
      unfold bind at 1. unfold ret. apply IH; [| exact Hbad | exact He].
      intros x Hx. apply Hh. right. exact Hx.
    + rewrite (send_state_send _ _ _ Hne), (recipients_cons_keep _ _ _ Hne).
      assert (Hb : broken w !! ws = None) by (apply Hh; [left | exact Hne]).
      rewrite (bind_Ok _ _ _ _ _ (ws_send_ok ws msg w Hb)).
      rewrite IH.
      * simpl. rewrite <- app_assoc. reflexivity.
      * intros x Hx Hxs. simpl. apply Hh; [right; exact Hx | exact Hxs].
      * exact Hbad.
      * exact He.
Qed.

Section Writes.

Variable cls : AgentClass.

(** A write of a JSON value over healthy sockets: the attribute, the two
    rows, the frames, and then the hook. *)
Lemma set_state_internal_ok j src w :
  healthy w src (sockets w) ->
  _set_state_internal cls (PJson j) src w
  = on_state_changed cls (PJson j)
      (written (PJson j) (json_dumps j) (json_dumps (state_message j))
         (recipients src (sockets w)) w).
Proof.
  intros Hh. unfold _set_state_internal.
  rewrite (bind_Ok _ _ _ _ _ (persist_state_ok j w)).
  set (w1 := with_table _ _).
  assert (Hb : broadcast_state (PJson j) src w1
               = Ok tt (with_outbox (outbox w1 ++ map (fun ws => (ws, json_dumps (state_message j)))
                                       (recipients src (sockets w1))) w1)).
  { unfold broadcast_state. simpl lift. unfold bind at 1. unfold ret at 1.
    unfold bind at 1. unfold getWebSockets at 1.
    apply for_each_send_ok. exact Hh. }
  rewrite (bind_Ok _ _ _ _ _ Hb). reflexivity.
Qed.

(** A write of a value [json.dumps] rejects stops after the assignment to
    [self._state]: no row, no frame, no hook. *)
Lemma set_state_internal_fail e src w :
  _set_state_internal cls (PNotJson e) src w
  = Raise e (with_cache (Some (PNotJson e)) w).
Proof. reflexivity. Qed.

(** A write whose broadcast meets a socket that raises. *)
Lemma set_state_internal_broken j src w (before : list nat) bad after e :
  sockets w = (before ++ bad :: after)%list ->
  healthy w src before ->
  Some bad <> src ->
  broken w !! bad = Some e ->
  _set_state_internal cls (PJson j) src w
  = Raise e (written (PJson j) (json_dumps j) (json_dumps (state_message j))
               (recipients src before) w).
Proof.
  intros Hs Hh Hbad He. unfold _set_state_internal.
  rewrite (bind_Ok _ _ _ _ _ (persist_state_ok j w)).
  set (w1 := with_table _ _).
  assert (Hb : broadcast_state (PJson j) src w1
               = Raise e (with_outbox (outbox w1 ++ map (fun ws => (ws, json_dumps (state_message j)))
                                        (recipients src before)) w1)).
  { unfold broadcast_state. simpl lift. unfold bind at 1. unfold ret at 1.
    unfold bind at 1. unfold getWebSockets at 1.
    change (sockets w1) with (sockets w). rewrite Hs.
    apply for_each_send_broken; assumption. }
  rewrite (bind_Raise _ _ _ _ _ Hb). reflexivity.
Qed.

End Writes.

Lemma recipients_all wss : recipients None wss = wss.
Proof.
  unfold recipients. induction wss as [| ws wss IH]; [reflexivity |].
  rewrite filter_cons. destruct (decide (Some ws <> None)) as [_ | Hn].
  - rewrite IH. reflexivity.
  - exfalso. apply Hn. discriminate.
Qed.

Lemma healthy_empty (w : world) src wss : broken w = ∅ -> healthy w src wss.
Proof. intros H ws _ _. rewrite H. apply lookup_empty. Qed.

Lemma healthy_second_closed : healthy w_second_closed None [1].
Proof.
  intros ws Hin _. apply list_elem_of_singleton in Hin. subst ws. reflexivity.
Qed.

(** ** Reading the state *)

Section Reads.

Variable json_loads : decoder.
Variable cls : AgentClass.

Lemma state_cached w v : cache w = Some v -> state json_loads cls w = Ok (Some v) w.
Proof.
  intros Hc. unfold state.
  rewrite (bind_Ok _ _ _ _ _ (eq_refl : get_cache w = Ok (cache w) w)).
  rewrite Hc. reflexivity.
Qed.

(** Without the marker row the read goes to the default. *)
Lemma state_no_marker w :
  cache w = None ->
  table w !! STATE_WAS_CHANGED = None ->
  state json_loads cls w
  = match initial_state cls with
    | None => Ok (Some PyNone) w
    | Some d => (_set_state_internal cls d None >> ret (Some d)) w
    end.
Proof.
  intros Hc Hm. unfold state.
  rewrite (bind_Ok _ _ _ _ _ (eq_refl : get_cache w = Ok (cache w) w)).
  rewrite Hc. unfold bind at 1. unfold sql_select at 1. rewrite Hm. simpl.
  destruct (initial_state cls); reflexivity.
Qed.

(** With both rows and a payload on which [json.loads] raises one of the
    two exceptions the [except] clause names, the read goes to that clause. *)
Lemma state_corrupt w m p :
  cache w = None ->
  table w !! STATE_WAS_CHANGED = Some m ->
  table w !! STATE_ROW_ID = Some p ->
  loads_row json_loads p = None ->
  is_instance ["JSONDecodeError"; "TypeError"] (row_exn json_loads p) = true ->
  state json_loads cls w
  = match initial_state cls with
    | Some d => (_set_state_internal cls d None >> get_cache) (with_cache (Some d) w)
    | None =>
        Ok (Some PyNone)
           (with_table (delete STATE_WAS_CHANGED (delete STATE_ROW_ID (table w))) w)
    end.
Proof.
  intros Hc Hm Hp Hl He. unfold state.
  rewrite (bind_Ok _ _ _ _ _ (eq_refl : get_cache w = Ok (cache w) w)).
  rewrite Hc. unfold bind at 1. unfold sql_select at 1. rewrite Hm.
  change (0 <? length [m])%nat with true. cbv iota.
  unfold bind at 1. unfold sql_select at 1. rewrite Hp. cbv iota. rewrite Hl, He.
  destruct (initial_state cls); reflexivity.
Qed.

(** On any other exception of [json.loads] the read raises it and changes
    nothing. *)
Lemma state_uncaught w m p :
  cache w = None ->
  table w !! STATE_WAS_CHANGED = Some m ->
  table w !! STATE_ROW_ID = Some p ->
  loads_row json_loads p = None ->
  is_instance ["JSONDecodeError"; "TypeError"] (row_exn json_loads p) = false ->
  state json_loads cls w = Raise (row_exn json_loads p) w.
Proof.
  intros Hc Hm Hp Hl He. unfold state.
  rewrite (bind_Ok _ _ _ _ _ (eq_refl : get_cache w = Ok (cache w) w)).
  rewrite Hc. unfold bind at 1. unfold sql_select at 1. rewrite Hm.
  change (0 <? length [m])%nat with true. cbv iota.
  unfold bind at 1. unfold sql_select at 1. rewrite Hp. cbv iota. rewrite Hl, He.
  reflexivity.
Qed.

End Reads.

(** C1, as the code has it: a read of the state touches nothing on an
    instance that already holds a state, and when there is neither a marker
    row nor a default (the read is then [None]).  But with nothing stored and
    a default [j] that serializes, the first read stores the default: both rows
    are written, then the state frame goes to the attached sockets in order.
    When every send succeeds, [on_state_changed] runs and the default is
    returned; when a send raises, the read raises that exception, with the
    rows written, the sockets after the failing one unserved and the hook not
    run.  A plain inspection request resolves the state the same way, with
    the same effects. *)
Theorem first_read_persists_default (json_loads : decoder) cls w :
  cache w = None ->
  table w !! STATE_WAS_CHANGED = None ->
  (initial_state cls = None ->
   state json_loads cls w = Ok (Some PyNone) w /\
   fetch json_loads cls (Request None) w
   = Ok (Response 200 (Some (json_dumps (snapshot_body cls JNull)))
           [("Content-Type", "application/json")] None) w) /\
  (forall j,
     initial_state cls = Some (PJson j) ->
     (healthy w None (sockets w) ->
      let w1 := written (PJson j) (json_dumps j) (json_dumps (state_message j))
                  (sockets w) w in
      table w1 !! STATE_ROW_ID = Some (Some (json_dumps j)) /\
      table w1 !! STATE_WAS_CHANGED = Some (Some "true") /\
      state json_loads cls w
      = (on_state_changed cls (PJson j) >> ret (Some (PJson j))) w1 /\
      fetch json_loads cls (Request None) w
      = (on_state_changed cls (PJson j) >>
         ret (Response 200 (Some (json_dumps (snapshot_body cls j)))
                [("Content-Type", "application/json")] None)) w1) /\
     (forall (before : list nat) bad after e,
        sockets w = (before ++ bad :: after)%list ->
        healthy w None before ->
        broken w !! bad = Some e ->
        let w1 := written (PJson j) (json_dumps j) (json_dumps (state_message j))
                    before w in
        table w1 !! STATE_ROW_ID = Some (Some (json_dumps j)) /\
        table w1 !! STATE_WAS_CHANGED = Some (Some "true") /\
        state json_loads cls w = Raise e w1 /\
        fetch json_loads cls (Request None) w = Raise e w1)) /\
  (forall w' v,
     cache w' = Some v ->
     state json_loads cls w' = Ok (Some v) w' /\
     (forall j', v = PJson j' ->
        fetch json_loads cls (Request None) w'
        = Ok (Response 200 (Some (json_dumps (snapshot_body cls j')))
                [("Content-Type", "application/json")] None) w')).
Proof.
  intros Hc Hm.
  assert (Hrows : forall j rs,
            table (written (PJson j) (json_dumps j) (json_dumps (state_message j)) rs w)
              !! STATE_ROW_ID = Some (Some (json_dumps j)) /\
            table (written (PJson j) (json_dumps j) (json_dumps (state_message j)) rs w)
              !! STATE_WAS_CHANGED = Some (Some "true")).
  { intros j rs. unfold written. simpl. split.
    - rewrite lookup_insert_ne by discriminate. apply lookup_insert_eq.
    - apply lookup_insert_eq. }
  split; [| split].
  - intros Hd.
    assert (Hs : state json_loads cls w = Ok (Some PyNone) w).
    { rewrite (state_no_marker _ _ _ Hc Hm), Hd. reflexivity. }
    split; [exact Hs |]. unfold fetch. simpl.
    rewrite (bind_Ok _ _ _ _ _ Hs). reflexivity.
  - intros j Hd. split.
    + intros Hh w1.
      assert (Hs : state json_loads cls w
                   = (on_state_changed cls (PJson j) >> ret (Some (PJson j))) w1).
      { rewrite (state_no_marker _ _ _ Hc Hm), Hd.
        unfold bind at 1. rewrite (set_state_internal_ok cls j None w Hh).
        rewrite recipients_all. reflexivity. }
      destruct (Hrows j (sockets w)) as [Hr Hk].
      split; [exact Hr |]. split; [exact Hk |]. split; [exact Hs |].
      unfold fetch. simpl. unfold bind at 1. rewrite Hs. unfold bind.
      destruct (on_state_changed cls (PJson j) w1); reflexivity.
    + intros before bad after e Hsock Hh He w1.
      assert (Hs : state json_loads cls w = Raise e w1).
      { rewrite (state_no_marker _ _ _ Hc Hm), Hd.
        assert (Hne : Some bad <> (None : option nat)) by discriminate.
        rewrite (bind_Raise _ _ _ _ _
                   (set_state_internal_broken cls j None w before bad after e
                      Hsock Hh Hne He)).
        rewrite recipients_all. reflexivity. }
      destruct (Hrows j before) as [Hr Hk].
      split; [exact Hr |]. split; [exact Hk |]. split; [exact Hs |].
      unfold fetch. simpl. rewrite (bind_Raise _ _ _ _ _ Hs). reflexivity.
  - intros w' v Hv.
    assert (Hs := state_cached json_loads cls w' v Hv).
    split; [exact Hs |]. intros j' ->.
    unfold fetch. simpl. rewrite (bind_Ok _ _ _ _ _ Hs). reflexivity.
Qed.

Lemma first_read_persists_default_witness :
  table w_one_socket = ∅ /\
  state Decoder.loads CounterAgent w_one_socket
  = Ok (Some (PJson counter0))
       (written (PJson counter0) (json_dumps counter0)
          (json_dumps (state_message counter0)) [1] w_one_socket) /\
  state Decoder.loads CounterAgent w_second_closed
  = Raise closed_socket
       (written (PJson counter0) (json_dumps counter0)
          (json_dumps (state_message counter0)) [1] w_second_closed) /\
  state Decoder.loads Agent w_one_socket = Ok (Some PyNone) w_one_socket.
Proof.
  split; [reflexivity |].
  destruct (first_read_persists_default Decoder.loads CounterAgent w_one_socket
              eq_refl eq_refl) as [_ [H1 _]].
  destruct (first_read_persists_default Decoder.loads CounterAgent w_second_closed
              eq_refl eq_refl) as [_ [H2 _]].
  destruct (first_read_persists_default Decoder.loads Agent w_one_socket
              eq_refl eq_refl) as [H3 _].
  split; [| split].
  - exact (proj1 (proj2 (proj2
             (proj1 (H1 counter0 eq_refl) (healthy_empty w_one_socket None [1] eq_refl))))).
  - exact (proj1 (proj2 (proj2
             (proj2 (H2 counter0 eq_refl) [1] 3 [5] closed_socket eq_refl
                healthy_second_closed eq_refl)))).
  - exact (proj1 (H3 eq_refl)).
Defined.

(** C1 as stated fails: on a new [CounterAgent] with nothing stored, the
    read of the state writes both rows and sends a frame to the attached
    socket. *)
Lemma default_read_mutates_store :
  table w_one_socket !! STATE_ROW_ID = None /\
  exists w',
    state Decoder.loads CounterAgent w_one_socket = Ok (Some (PJson counter0)) w' /\
    table w' !! STATE_ROW_ID = Some (Some (dq "{'count': 0, 'last_action': null}")) /\
    table w' !! STATE_WAS_CHANGED = Some (Some "true") /\
    outbox w'
    = [(1, dq "{'type': 'cf_agent_state', 'state': {'count': 0, 'last_action': null}}")].
Proof.
  split; [reflexivity |].
  eexists. split; [reflexivity |].
  repeat split; vm_compute; reflexivity.
Qed.

(** ** A write that fails *)

(** What [webSocketMessage] does with a state push once the frame is
    decoded. *)
Lemma state_push_unfold (json_loads : decoder) cls ws raw parsed j w :
  json_loads raw = Some parsed ->
  py_get parsed "type" JNull = inr (JStr CF_AGENT_STATE) ->
  py_get parsed "state" JNull = inr j ->
  webSocketMessage json_loads cls ws (Text raw) w
  = try_except (_set_state_internal cls (PJson j) (Some ws))
      (fun e => ws_send ws (json_dumps (state_error_message (exn_str e)))) w.
Proof.
  intros Hl Ht Hs. unfold webSocketMessage. rewrite Hl, Ht. simpl lift.
  unfold bind at 1. unfold ret at 1. simpl eq_str. cbv iota.
  rewrite Hs. reflexivity.
Qed.

(** C2, as the code has it: a write of a value that [json.dumps] rejects
    raises that error to the caller at once, writes no row, sends no frame
    and does not run the hook, but [self._state] already holds the rejected
    value.  On the wire, any failure of the write is answered by one
    [cf_agent_state_error] frame, carrying the text of the error, on the
    socket the push came from. *)
Theorem failed_write_effects (json_loads : decoder) cls :
  (forall v e src w,
     py_dumps v = inl e ->
     _set_state_internal cls v src w = Raise e (with_cache (Some v) w)) /\
  (forall ws raw parsed j e w w',
     json_loads raw = Some parsed ->
     py_get parsed "type" JNull = inr (JStr CF_AGENT_STATE) ->
     py_get parsed "state" JNull = inr j ->
     _set_state_internal cls (PJson j) (Some ws) w = Raise e w' ->
     webSocketMessage json_loads cls ws (Text raw) w
     = ws_send ws (json_dumps (state_error_message (exn_str e))) w').
Proof.
  split.
  - intros v e src w Hd. destruct v as [j | e']; [discriminate |].
    injection Hd as ->. apply set_state_internal_fail.
  - intros ws raw parsed j e w w' Hl Ht Hs Hr.
    rewrite (state_push_unfold _ _ _ _ _ _ _ Hl Ht Hs).
    rewrite (try_Raise _ _ _ _ _ Hr). reflexivity.
Qed.

(** A push from socket 1 while socket 3, the next one, is closed. *)
Lemma push_meets_closed_socket :
  _set_state_internal Agent (PJson (JInt 5)) (Some 1) w_second_closed
  = Raise closed_socket
      (written (PJson (JInt 5)) "5" (json_dumps (state_message (JInt 5))) []
         w_second_closed).
Proof. vm_compute. reflexivity. Qed.

Lemma failed_write_effects_witness :
  (py_dumps a_set = inl (not_serializable "set") /\
   set_state Agent a_set w_cached
   = Raise (not_serializable "set") (with_cache (Some a_set) w_cached)) /\
  webSocketMessage Decoder.loads Agent 1
    (Text (dq "{'type': 'cf_agent_state', 'state': 5}")) w_second_closed
  = ws_send 1 (json_dumps (state_error_message (exn_str closed_socket)))
      (written (PJson (JInt 5)) "5" (json_dumps (state_message (JInt 5))) []
         w_second_closed).
Proof.
  split; [split; [reflexivity |] |].
  - exact (proj1 (failed_write_effects Decoder.loads Agent)
             a_set (not_serializable "set") None w_cached eq_refl).
  - exact (proj2 (failed_write_effects Decoder.loads Agent)
             1 (dq "{'type': 'cf_agent_state', 'state': 5}")
             (JDict [("type", JStr CF_AGENT_STATE); ("state", JInt 5)]) (JInt 5)
             closed_socket w_second_closed _
             eq_refl eq_refl eq_refl push_meets_closed_socket).
Defined.

(** C2 as stated fails: after [set_state] was called with a [set] on an
    instance holding [7], the call has raised and no row is written, but the
    instance holds the [set]. *)
Lemma failed_write_changes_cache :
  cache w_cached = Some (PJson (JInt 7)) /\
  exists w',
    set_state Agent a_set w_cached = Raise (not_serializable "set") w' /\
    table w' = table w_cached /\
    cache w' = Some a_set /\
    cache w' <> cache w_cached.
Proof.
  split; [reflexivity |].
  eexists. split; [reflexivity |].
  split; [reflexivity |]. split; [reflexivity |].
  simpl. discriminate.
Qed.

(** ** A broadcast that meets a closed socket *)

(** C3, as the code has it: when the send on one socket raises, the loop
    ends there: the recipients before that socket in the order of
    [getWebSockets()] have the frame, the ones after it do not, the hook is
    not run and the exception reaches the caller.  The rows and the attribute
    keep the new state: nothing is undone. *)
Theorem broadcast_stops_at_failing_socket cls j src w (before : list nat) bad after e :
  sockets w = (before ++ bad :: after)%list ->
  healthy w src before ->
  Some bad <> src ->
  broken w !! bad = Some e ->
  let w' := written (PJson j) (json_dumps j) (json_dumps (state_message j))
              (recipients src before) w in
  _set_state_internal cls (PJson j) src w = Raise e w' /\
  table w' !! STATE_ROW_ID = Some (Some (json_dumps j)) /\
  table w' !! STATE_WAS_CHANGED = Some (Some "true") /\
  cache w' = Some (PJson j) /\
  outbox w' = (outbox w ++ map (fun ws => (ws, json_dumps (state_message j)))
                          (recipients src before))%list.
Proof.
  intros Hs Hh Hbad He w'. split.
  - apply (set_state_internal_broken cls j src w before bad after e); assumption.
  - subst w'. unfold written. simpl. split; [| split; [| split]].
    + rewrite lookup_insert_ne by discriminate. apply lookup_insert_eq.
    + apply lookup_insert_eq.
    + reflexivity.
    + reflexivity.
Qed.

Lemma broadcast_stops_at_failing_socket_witness :
  sockets w_second_closed = [1; 3; 5] /\
  broken w_second_closed !! 3 = Some closed_socket /\
  set_state Agent (PJson (JInt 5)) w_second_closed
  = Raise closed_socket
      (written (PJson (JInt 5)) "5" (json_dumps (state_message (JInt 5))) [1]
         w_second_closed).
Proof.
  split; [reflexivity |]. split; [reflexivity |].
  exact (proj1 (broadcast_stops_at_failing_socket Agent (JInt 5) None w_second_closed
                  [1] 3 [5] closed_socket eq_refl healthy_second_closed
                  (fun H => eq_ind (Some 3) (fun o => match o with Some _ => True | None => False end) I None H)
                  eq_refl)).
Defined.

(** C3 as stated fails: with the sockets 1, 3 and 5 attached and 3 closed
    by its peer, a write reaches socket 1 only; socket 5 gets nothing
    although its own send would succeed. *)
Lemma closed_socket_starves_later_ones :
  broken w_second_closed !! 5 = None /\
  exists w',
    set_state Agent (PJson (JInt 5)) w_second_closed = Raise closed_socket w' /\
    outbox w' = [(1, dq "{'type': 'cf_agent_state', 'state': 5}")] /\
    table w' !! STATE_ROW_ID = Some (Some "5").
Proof.
  split; [reflexivity |].
  eexists. split; [vm_compute; reflexivity |].
  split; vm_compute; reflexivity.
Qed.

(** ** A state row that does not load *)

Lemma written_over_cache v text msg rs c w :
  written v text msg rs (with_cache c w) = written v text msg rs w.
Proof. reflexivity. Qed.

(** C5, as the code has it: on a new instance whose marker row is there
    and whose state row makes [json.loads] raise, what the read does depends
    on the exception and on the default.  On a [JSONDecodeError] or a
    [TypeError] the [except] clause runs.  Without a default it deletes both
    rows and returns [None]; this never raises.  With a default it stores the
    default again through [_set_state_internal] and returns what the instance
    holds once [on_state_changed] has returned; it raises where that write
    raises: when [json.dumps] rejects the default (the rows stay as they
    were), at the first attached socket whose send raises (the rows are
    rewritten by then), or in the hook.  On any other exception of
    [json.loads], such as the [ValueError] for an integer with too many
    digits, the read raises it and changes nothing. *)
Theorem corrupt_row_recovery (json_loads : decoder) cls w m p :
  cache w = None ->
  table w !! STATE_WAS_CHANGED = Some m ->
  table w !! STATE_ROW_ID = Some p ->
  loads_row json_loads p = None ->
  (is_instance ["JSONDecodeError"; "TypeError"] (row_exn json_loads p) = true ->
   (initial_state cls = None ->
    exists w',
      state json_loads cls w = Ok (Some PyNone) w' /\
      table w' !! STATE_ROW_ID = None /\
      table w' !! STATE_WAS_CHANGED = None) /\
   (forall j,
      initial_state cls = Some (PJson j) ->
      healthy w None (sockets w) ->
      let w1 := written (PJson j) (json_dumps j) (json_dumps (state_message j))
                  (sockets w) w in
      cache w1 = Some (PJson j) /\
      table w1 !! STATE_ROW_ID = Some (Some (json_dumps j)) /\
      table w1 !! STATE_WAS_CHANGED = Some (Some "true") /\
      (forall w2, on_state_changed cls (PJson j) w1 = Ok tt w2 ->
         state json_loads cls w = Ok (cache w2) w2) /\
      (forall e w2, on_state_changed cls (PJson j) w1 = Raise e w2 ->
         state json_loads cls w = Raise e w2)) /\
   (forall j (before : list nat) bad after e,
      initial_state cls = Some (PJson j) ->
      sockets w = (before ++ bad :: after)%list ->
      healthy w None before ->
      broken w !! bad = Some e ->
      state json_loads cls w
      = Raise e (written (PJson j) (json_dumps j) (json_dumps (state_message j))
                   before w)) /\
   (forall e,
      initial_state cls = Some (PNotJson e) ->
      state json_loads cls w = Raise e (with_cache (Some (PNotJson e)) w))) /\
  (is_instance ["JSONDecodeError"; "TypeError"] (row_exn json_loads p) = false ->
   state json_loads cls w = Raise (row_exn json_loads p) w).
Proof.
  intros Hc Hm Hp Hl. split.
  - intros He.
    assert (Hs := state_corrupt json_loads cls w m p Hc Hm Hp Hl He).
    split; [| split; [| split]].
    + intros Hd. eexists. rewrite Hs, Hd.
      split; [reflexivity |]. simpl. split.
      * rewrite lookup_delete_ne by discriminate. apply lookup_delete_eq.
      * apply lookup_delete_eq.
    + intros j Hd Hh w1.
      assert (Hw : (_set_state_internal cls (PJson j) None >> get_cache)
                     (with_cache (Some (PJson j)) w)
                   = (on_state_changed cls (PJson j) >> get_cache) w1).
      { unfold bind at 1.
        rewrite (set_state_internal_ok cls j None (with_cache (Some (PJson j)) w) Hh).
        rewrite recipients_all. change (sockets (with_cache _ w)) with (sockets w).
        rewrite written_over_cache. reflexivity. }
      split; [reflexivity |]. split; [| split; [| split]].
      * subst w1. unfold written. simpl.
        rewrite lookup_insert_ne by discriminate. apply lookup_insert_eq.
      * subst w1. unfold written. simpl. apply lookup_insert_eq.
      * intros w2 Hk. rewrite Hs, Hd, Hw. rewrite (bind_Ok _ _ _ _ _ Hk). reflexivity.
      * intros e w2 Hk. rewrite Hs, Hd, Hw. apply bind_Raise. exact Hk.
    + intros j before bad after e Hd Hsock Hh Hb.
      rewrite Hs, Hd.
      assert (Hne : Some bad <> (None : option nat)) by discriminate.
      rewrite (bind_Raise _ _ _ _ _
                 (set_state_internal_broken cls j None (with_cache (Some (PJson j)) w)
                    before bad after e Hsock Hh Hne Hb)).
      rewrite recipients_all, written_over_cache. reflexivity.
    + intros e Hd. rewrite Hs, Hd. reflexivity.
  - intros He. exact (state_uncaught json_loads cls w m p Hc Hm Hp Hl He).
Qed.

Lemma corrupt_row_recovery_witness :
  (table w_corrupt !! STATE_ROW_ID = Some (Some "{oops") /\
   Decoder.loads "{oops" = None) /\
  (exists w',
     state Decoder.loads Agent w_corrupt = Ok (Some PyNone) w' /\
     table w' !! STATE_ROW_ID = None /\
     table w' !! STATE_WAS_CHANGED = None) /\
  state Decoder.loads CounterAgent w_corrupt
  = Ok (Some (PJson counter0))
       (written (PJson counter0) (json_dumps counter0)
          (json_dumps (state_message counter0)) [1] w_corrupt) /\
  exists e,
    exn_class e = "ValueError" /\
    state Decoder.loads CounterAgent w_long_integer = Raise e w_long_integer.
Proof.
  split; [split; reflexivity |].
  destruct (corrupt_row_recovery Decoder.loads Agent w_corrupt
              (Some "true") (Some "{oops") eq_refl eq_refl eq_refl eq_refl)
    as [[Hnone _] _]; [reflexivity |].
  destruct (corrupt_row_recovery Decoder.loads CounterAgent w_corrupt
              (Some "true") (Some "{oops") eq_refl eq_refl eq_refl eq_refl)
    as [[_ [Hdef _]] _]; [reflexivity |].
  assert (Hlong : loads_row Decoder.loads (Some (times "9" 4301)) = None)
    by (vm_compute; reflexivity).
  assert (Hcls : is_instance ["JSONDecodeError"; "TypeError"]
                   (row_exn Decoder.loads (Some (times "9" 4301))) = false)
    by (vm_compute; reflexivity).
  split; [exact (Hnone eq_refl) |]. split.
  - exact (proj1 (proj2 (proj2 (proj2
             (Hdef counter0 eq_refl (healthy_empty w_corrupt None [1] eq_refl)))))
             _ eq_refl).
  - eexists. split; [| exact (proj2 (corrupt_row_recovery Decoder.loads CounterAgent
                                 w_long_integer (Some "true") (Some (times "9" 4301))
                                 eq_refl eq_refl eq_refl Hlong) Hcls)].
    vm_compute. reflexivity.
Defined.

(** C5 as stated fails: on a new [CounterAgent] whose state row does not
    load and whose one attached socket was closed by its peer, the read of
    the state rewrites both rows with the default and then raises the
    exception of the send to the caller. *)
Lemma corrupt_row_read_raises :
  table w_corrupt_closed !! STATE_ROW_ID = Some (Some "{oops") /\
  table w_corrupt_closed !! STATE_WAS_CHANGED = Some (Some "true") /\
  Decoder.loads "{oops" = None /\
  exists w',
    state Decoder.loads CounterAgent w_corrupt_closed = Raise closed_socket w' /\
    table w' !! STATE_ROW_ID = Some (Some (dq "{'count': 0, 'last_action': null}")).
Proof.
  split; [reflexivity |]. split; [reflexivity |]. split; [reflexivity |].
  eexists. split; [vm_compute; reflexivity |].
  vm_compute. reflexivity.
Qed.

(** ** A connection opens *)




(** ** Remote calls *)

Section Dispatch.

Variable json_loads : decoder.
Variable cls : AgentClass.

(** Only a decorated function under a public name is callable. *)
Lemma callable_lookup name m :
  _get_callable_methods cls !! name = Some m <->
  String.prefix "_" name = false /\
  members cls !! name = Some (Function m) /\
  _agent_callable m = true.
Proof.
  unfold _get_callable_methods. rewrite lookup_omap_Some. split.
  - intros [a [Ha Hf]]. apply map_lookup_filter_Some in Hf as [Hm Hp].
    simpl in Hp. destruct a as [m' |]; [| discriminate].
    destruct (_agent_callable m') eqn:E; [| discriminate].
    injection Ha as <-. auto.
  - intros [Hp [Hm Hc]]. exists (Function m). split.
    + rewrite Hc. reflexivity.
    + apply map_lookup_filter_Some. split; [exact Hm | exact Hp].
Qed.

(** A request is a [dict]: once one [get] has answered, [parsed] is one and
    the other two answer as well. *)
Lemma py_get_dict d key dflt v key' dflt' :
  py_get d key dflt = inr v -> exists v', py_get d key' dflt' = inr v'.
Proof. destruct d; try discriminate. intros _. eexists. reflexivity. Qed.

Lemma handle_rpc_unfold ws parsed rpc_id name args w :
  py_get parsed "id" JNull = inr rpc_id ->
  py_get parsed "method" JNull = inr (JStr name) ->
  py_get parsed "args" (JList []) = inr args ->
  _handle_rpc json_loads cls ws parsed w
  = match _get_callable_methods cls !! name with
    | None =>
        ws_send ws (json_dumps
          (rpc_error rpc_id ("Method " +:+ name +:+ " is not callable"))) w
    | Some m =>
        try_except
          (argv <- lift (star m args) ;;
           result <- body m (self json_loads cls) argv ;;
           text <- lift (dumps_in (rpc_result rpc_id) result) ;;
           ws_send ws text)
          (fun e => ws_send ws (json_dumps (rpc_error rpc_id (exn_str e)))) w
    end.
Proof.
  intros Hi Hm Ha. unfold _handle_rpc. rewrite Hi, Hm, Ha. simpl lift.
  unfold bind at 1. unfold ret at 1. unfold bind at 1. unfold ret at 1.
  unfold bind at 1. unfold ret at 1.
  change (hashable_str (JStr name)) with (Some name).
  change (find_callable cls (JStr name)) with (_get_callable_methods cls !! name).
  cbv iota. destruct (_get_callable_methods cls !! name); reflexivity.
Qed.

End Dispatch.

(** C7: a name is registered only if it is public and its class attribute
    is a function carrying a true [_agent_callable]; and a request whose
    method is not registered is answered on the requesting socket with the
    request's id, [success] false and the error [Method <name> is not
    callable], the state and the rows being left as they were. *)
Theorem unregistered_method_is_refused (json_loads : decoder) cls :
  (forall name,
     String.prefix "_" name = true \/
     (forall m, members cls !! name = Some (Function m) -> _agent_callable m = false) ->
     _get_callable_methods cls !! name = None) /\
  (forall ws parsed rpc_id name w,
     py_get parsed "id" JNull = inr rpc_id ->
     py_get parsed "method" JNull = inr (JStr name) ->
     _get_callable_methods cls !! name = None ->
     _handle_rpc json_loads cls ws parsed w
     = ws_send ws (json_dumps
         (rpc_error rpc_id ("Method " +:+ name +:+ " is not callable"))) w /\
     cache (world_of (_handle_rpc json_loads cls ws parsed w)) = cache w /\
     table (world_of (_handle_rpc json_loads cls ws parsed w)) = table w).
Proof.
  split.
  - intros name H.
    destruct (_get_callable_methods cls !! name) as [m |] eqn:E; [| reflexivity].
    apply callable_lookup in E as [Hp [Hm Hc]]. destruct H as [H | H].
    + rewrite H in Hp. discriminate.
    + rewrite (H m Hm) in Hc. discriminate.
  - intros ws parsed rpc_id name w Hi Hm Hn.
    destruct (py_get_dict parsed "id" JNull rpc_id "args" (JList []) Hi) as [args Ha].
    assert (Heq : _handle_rpc json_loads cls ws parsed w
                  = ws_send ws (json_dumps
                      (rpc_error rpc_id ("Method " +:+ name +:+ " is not callable"))) w).
    { rewrite (handle_rpc_unfold _ _ _ _ _ _ _ _ Hi Hm Ha), Hn. reflexivity. }
    split; [exact Heq |]. rewrite Heq.
    destruct (ws_send_frame ws (json_dumps
      (rpc_error rpc_id ("Method " +:+ name +:+ " is not callable"))) w) as [Hc [Ht _]].
    split; assumption.
Qed.

Lemma unregistered_method_is_refused_witness :
  Decoder.loads (dq "{'id': '2', 'method': 'nope', 'args': []}")
  = Some (JDict [("id", JStr "2"); ("method", JStr "nope"); ("args", JList [])]) /\
  _get_callable_methods CounterAgent !! "set_state" = None /\
  _handle_rpc Decoder.loads CounterAgent 1
    (JDict [("id", JStr "2"); ("method", JStr "nope"); ("args", JList [])]) w_one_socket
  = ws_send 1 (dq "{'type': 'rpc', 'id': '2', 'success': false, 'error': 'Method nope is not callable'}")
      w_one_socket.
Proof.
  split; [vm_compute; reflexivity |]. split.
  - apply (proj1 (unregistered_method_is_refused Decoder.loads CounterAgent)).
    right. intros m Hm. vm_compute in Hm. discriminate.
  - exact (proj1 (proj2 (unregistered_method_is_refused Decoder.loads CounterAgent)
                    1 (JDict [("id", JStr "2"); ("method", JStr "nope"); ("args", JList [])])
                    (JStr "2") "nope" w_one_socket eq_refl eq_refl
                    (proj1 (unregistered_method_is_refused Decoder.loads CounterAgent)
                       "nope" (or_intror (fun m (Hm : members CounterAgent !! "nope" = Some (Function m)) =>
                          match eq_ind (members CounterAgent !! "nope")
                                  (fun o => match o with Some _ => False | None => True end)
                                  I _ Hm with end))))).
Defined.




Lemma callable_reset : _get_callable_methods CounterAgent !! "reset" = Some reset_method.
Proof. vm_compute. reflexivity. Qed.


(** ** A state push from a client *)

(** C9: a state push from the socket [c1] that is written stores the new
    state and sends the state frame to the sockets of [getWebSockets()] other
    than [c1], in the order of that list, and not to [c1]; this is the world
    in which [on_state_changed] then runs. *)
Theorem push_reaches_all_but_sender (json_loads : decoder) cls c1 raw parsed j w :
  json_loads raw = Some parsed ->
  py_get parsed "type" JNull = inr (JStr CF_AGENT_STATE) ->
  py_get parsed "state" JNull = inr j ->
  healthy w (Some c1) (sockets w) ->
  let msg := json_dumps (state_message j) in
  let sent := recipients (Some c1) (sockets w) in
  let w1 := written (PJson j) (json_dumps j) msg sent w in
  webSocketMessage json_loads cls c1 (Text raw) w
  = try_except (on_state_changed cls (PJson j))
      (fun e => ws_send c1 (json_dumps (state_error_message (exn_str e)))) w1 /\
  outbox w1 = (outbox w ++ map (fun ws => (ws, msg)) sent)%list /\
  (c1 ∉ sent) /\
  (forall c, c ∈ sockets w -> c <> c1 -> c ∈ sent) /\
  sent `sublist_of` sockets w.
Proof.
  intros Hl Ht Hs Hh msg sent w1. split; [| split; [| split; [| split]]].
  - rewrite (state_push_unfold _ _ _ _ _ _ _ Hl Ht Hs). unfold try_except.
    rewrite (set_state_internal_ok cls j (Some c1) w Hh). reflexivity.
  - reflexivity.
  - subst sent. unfold recipients. intros Hin.
    apply list_elem_of_filter in Hin as [Hne _]. apply Hne. reflexivity.
  - intros c Hin Hne. subst sent. unfold recipients.
    apply list_elem_of_filter. split; [| exact Hin].
    intros Heq. apply Hne. injection Heq as ->. reflexivity.
  - subst sent. unfold recipients. apply sublist_filter.
Qed.

Lemma push_reaches_all_but_sender_witness :
  Decoder.loads push_five
  = Some (JDict [("type", JStr CF_AGENT_STATE); ("state", JInt 5)]) /\
  exists w',
    webSocketMessage Decoder.loads Agent 3 (Text push_five) w_three_sockets = Ok tt w' /\
    outbox w' = [(1, push_five); (5, push_five)] /\
    table w' !! STATE_ROW_ID = Some (Some "5").
Proof.
  split; [vm_compute; reflexivity |].
  eexists. split.
  - exact (proj1 (push_reaches_all_but_sender Decoder.loads Agent 3 push_five
             (JDict [("type", JStr CF_AGENT_STATE); ("state", JInt 5)]) (JInt 5)
             w_three_sockets eq_refl eq_refl eq_refl
             (healthy_empty w_three_sockets (Some 3) [1; 3; 5] eq_refl))).
  - split; vm_compute; reflexivity.
Defined.

(** ** The two rows go together *)

Lemma paired_table w w' : table w' = table w -> paired w -> paired w'.
Proof. unfold paired. intros ->. tauto. Qed.

Lemma keeps_frame {A} (m : M A) :
  (forall w, table (world_of (m w)) = table w) -> keeps_paired m.
Proof. intros H w Hp. exact (paired_table _ _ (H w) Hp). Qed.

Lemma keeps_ret {A} (a : A) : keeps_paired (ret a).
Proof. intros w Hp. exact Hp. Qed.

Lemma keeps_raise {A} e : keeps_paired (@raise A e).
Proof. intros w Hp. exact Hp. Qed.

Lemma keeps_lift {A} (r : exn + A) : keeps_paired (lift r).
Proof. destruct r; [apply keeps_raise | apply keeps_ret]. Qed.

Lemma keeps_bind {A B} (m : M A) (k : A -> M B) :
  keeps_paired m -> (forall a, keeps_paired (k a)) -> keeps_paired (bind m k).
Proof.
  intros Hm Hk w Hp. unfold bind. specialize (Hm w Hp).
  destruct (m w) as [a w' | e w']; simpl in *; [apply Hk; exact Hm | exact Hm].
Qed.

Lemma keeps_try {A} (m : M A) h :
  keeps_paired m -> (forall e, keeps_paired (h e)) -> keeps_paired (try_except m h).
Proof.
  intros Hm Hh w Hp. unfold try_except. specialize (Hm w Hp).
  destruct (m w) as [a w' | e w']; simpl in *; [exact Hm | apply Hh; exact Hm].
Qed.

Lemma keeps_ws_send ws text : keeps_paired (ws_send ws text).
Proof. apply keeps_frame. intros w. apply (ws_send_frame ws text w). Qed.

Lemma keeps_for_each {A} (xs : list A) body :
  (forall x, keeps_paired (body x)) -> keeps_paired (for_each xs body).
Proof.
  intros Hb. induction xs as [| x xs IH]; simpl.
  - apply keeps_ret.
  - apply keeps_bind; [apply Hb | intros _; exact IH].
Qed.

(** The write puts both rows, or none when the value does not serialize. *)
Lemma keeps_persist_state v : keeps_paired (persist_state v).
Proof.
  intros w Hp. destruct v as [j | e].
  - rewrite persist_state_ok. unfold paired. simpl. split; intros _.
    + rewrite lookup_insert_eq. eauto.
    + rewrite lookup_insert_ne by discriminate. rewrite lookup_insert_eq. eauto.
  - rewrite persist_state_fail. exact (paired_table w _ eq_refl Hp).
Qed.

(** The recovery deletes both rows. *)
Lemma keeps_delete_both {A} (k : M A) :
  keeps_paired k ->
  keeps_paired (sql_delete STATE_ROW_ID >> sql_delete STATE_WAS_CHANGED >> k).
Proof.
  intros Hk w _. unfold bind at 1. unfold sql_delete at 1.
  unfold bind at 1. unfold sql_delete at 1. apply Hk.
  unfold paired. simpl. rewrite lookup_delete_eq.
  rewrite lookup_delete_ne by discriminate. rewrite lookup_delete_eq.
  split; intros [x Hx]; discriminate.
Qed.

Ltac keeps_step :=
  first
    [ apply keeps_ret
    | apply keeps_raise
    | apply keeps_lift
    | apply keeps_ws_send
    | apply keeps_persist_state
    | apply keeps_delete_both
    | apply keeps_for_each; intros ?
    | apply keeps_try; [| intros ?]
    | apply keeps_bind; [| intros ?]
    | apply keeps_frame; intros ?; reflexivity
    | match goal with
      | |- keeps_paired (match ?x with _ => _ end) => destruct x
      | |- keeps_paired (if ?b then _ else _) => destruct b
      end ].

Section Invariant.

Variable json_loads : decoder.
Variable cls : AgentClass.
Hypothesis hooks_ok : hooks_keep_paired cls.
Hypothesis methods_ok : methods_keep_paired cls.

Lemma keeps_set_state_internal v src : keeps_paired (_set_state_internal cls v src).
Proof.
  unfold _set_state_internal, broadcast_state, send_state.
  repeat keeps_step. apply (changed_keeps cls hooks_ok).
Qed.

Lemma keeps_state : keeps_paired (state json_loads cls).
Proof.
  unfold state.
  repeat first [apply keeps_set_state_internal | keeps_step].
Qed.

Lemma keeps_fetch req : keeps_paired (fetch json_loads cls req).
Proof.
  unfold fetch.
  repeat first [apply keeps_state | apply (connect_keeps cls hooks_ok) | keeps_step].
Qed.

Lemma keeps_handle_rpc ws parsed : keeps_paired (_handle_rpc json_loads cls ws parsed).
Proof.
  unfold _handle_rpc.
  apply keeps_bind; [apply keeps_lift | intros rpc_id].
  apply keeps_bind; [apply keeps_lift | intros method_name].
  apply keeps_bind; [apply keeps_lift | intros args].
  destruct (hashable_str method_name) as [text |]; [| apply keeps_raise].
  destruct (find_callable cls method_name) as [m |] eqn:E; [| apply keeps_ws_send].
  assert (Hm : exists name, members cls !! name = Some (Function m)).
  { destruct method_name; try discriminate. simpl in E.
    apply callable_lookup in E as [_ [Hm _]]. eauto. }
  destruct Hm as [name Hm].
  apply keeps_try; [| intros e; apply keeps_ws_send].
  apply keeps_bind; [apply keeps_lift | intros argv].
  apply keeps_bind.
  - apply (methods_ok name m (self json_loads cls) argv Hm).
    + apply keeps_state.
    + intros v. apply keeps_set_state_internal.
  - intros result. repeat keeps_step.
Qed.

Lemma keeps_message ws m : keeps_paired (webSocketMessage json_loads cls ws m).
Proof.
  unfold webSocketMessage.
  repeat first [ apply keeps_set_state_internal | apply keeps_handle_rpc
               | apply (message_keeps cls hooks_ok) | keeps_step ].
Qed.

Lemma step_keeps_paired ev w : paired w -> paired (step json_loads cls ev w).
Proof.
  intros Hp. destruct ev; simpl.
  - exact (paired_table w _ eq_refl Hp).
  - apply keeps_state. exact Hp.
  - apply keeps_set_state_internal. exact Hp.
  - apply keeps_fetch. exact Hp.
  - apply keeps_message. exact Hp.
  - apply (close_keeps cls hooks_ok). exact Hp.
  - apply (error_keeps cls hooks_ok). exact Hp.
Qed.

Lemma run_keeps_paired evs : forall w, paired w -> paired (run json_loads cls evs w).
Proof.
  induction evs as [| ev evs IH]; intros w Hp; simpl.
  - exact Hp.
  - apply IH. apply step_keeps_paired. exact Hp.
Qed.

End Invariant.

(** C10: for a class whose hooks and functions reach the table through
    the agent only, every sequence of events from an empty table leaves the
    state row and the marker row both present or both absent.  A write that
    serializes puts both rows, the marker as [true], and right after it the
    state row holds the serialization of what the instance holds; what
    follows in [_set_state_internal] is the broadcast and the hook.  The
    recovery from a state row that does not load, on a class without a
    default, deletes both rows: after that read neither is there. *)
Theorem rows_stay_paired (json_loads : decoder) cls w0 evs :
  hooks_keep_paired cls ->
  methods_keep_paired cls ->
  table w0 = ∅ ->
  paired (run json_loads cls evs w0) /\
  (forall v text src w,
     py_dumps v = inr text ->
     exists w',
       persist_state v w = Ok tt w' /\
       cache w' = Some v /\
       table w' !! STATE_ROW_ID = Some (Some text) /\
       table w' !! STATE_WAS_CHANGED = Some (Some "true") /\
       _set_state_internal cls v src w
       = (broadcast_state v src >> on_state_changed cls v) w') /\
  (forall w m p,
     cache w = None ->
     table w !! STATE_WAS_CHANGED = Some m ->
     table w !! STATE_ROW_ID = Some p ->
     loads_row json_loads p = None ->
     is_instance ["JSONDecodeError"; "TypeError"] (row_exn json_loads p) = true ->
     initial_state cls = None ->
     table (world_of (state json_loads cls w))
     = delete STATE_WAS_CHANGED (delete STATE_ROW_ID (table w)) /\
     table (world_of (state json_loads cls w)) !! STATE_ROW_ID = None /\
     table (world_of (state json_loads cls w)) !! STATE_WAS_CHANGED = None).
Proof.
  intros Hh Hm H0. split; [| split].
  - apply run_keeps_paired; [exact Hh | exact Hm |].
    unfold paired. rewrite H0, !lookup_empty. split; intros [x Hx]; discriminate.
  - intros v text src w Hd. destruct v as [j | e]; [| discriminate].
    injection Hd as <-. eexists. split; [apply persist_state_ok |].
    simpl. split; [reflexivity |]. split; [| split].
    + rewrite lookup_insert_ne by discriminate. apply lookup_insert_eq.
    + apply lookup_insert_eq.
    + reflexivity.
  - intros w m p Hc Hmk Hp Hl He Hd.
    rewrite (state_corrupt json_loads cls w m p Hc Hmk Hp Hl He), Hd. simpl.
    split; [reflexivity |]. split.
    + rewrite lookup_delete_ne by discriminate. apply lookup_delete_eq.
    + apply lookup_delete_eq.
Qed.

Lemma counter_hooks_keep_paired : hooks_keep_paired CounterAgent.
Proof. split; intros; exact (fun w Hp => Hp). Qed.

Lemma agent_members_other name m : Agent_members !! name <> Some (Function m).
Proof.
  intros H. apply elem_of_list_to_map_2 in H. apply list_elem_of_In in H.
  simpl in H. repeat (destruct H as [H | H]; [discriminate |]). exact H.
Qed.

Lemma keeps_reset_body api argv :
  (forall v, keeps_paired (self_set_state api v)) ->
  keeps_paired (reset_body api argv).
Proof.
  intros Hs. unfold reset_body. destruct argv.
  - apply keeps_bind; [apply Hs | intros _; apply keeps_ret].
  - apply keeps_raise.
Qed.

Lemma counter_methods_keep_paired : methods_keep_paired CounterAgent.
Proof.
  intros name m api argv Hm _ Hs. simpl in Hm.
  apply lookup_insert_Some in Hm as [[_ Hm] | [_ Hm]].
  - injection Hm as <-. apply keeps_reset_body. exact Hs.
  - exfalso. exact (agent_members_other name m Hm).
Qed.

Lemma agent_keeps_paired : hooks_keep_paired Agent /\ methods_keep_paired Agent.
Proof.
  split.
  - split; intros; exact (fun w Hp => Hp).
  - intros name m api argv Hm _ _. exfalso. exact (agent_members_other name m Hm).
Qed.

Lemma rows_stay_paired_witness :
  table (fresh "a") = ∅ /\
  paired (run Decoder.loads CounterAgent session (fresh "a")) /\
  table (run Decoder.loads CounterAgent session (fresh "a")) !! STATE_ROW_ID
  = Some (Some "5") /\
  table w_corrupt !! STATE_ROW_ID = Some (Some "{oops") /\
  table (world_of (state Decoder.loads Agent w_corrupt)) = ∅.
Proof.
  split; [reflexivity |]. split; [| split; [| split]].
  - exact (proj1 (rows_stay_paired Decoder.loads CounterAgent (fresh "a") session
                    counter_hooks_keep_paired counter_methods_keep_paired eq_refl)).
  - vm_compute. reflexivity.
  - reflexivity.
  - rewrite (proj1 (proj2 (proj2
               (rows_stay_paired Decoder.loads Agent (fresh "a") []
                  (proj1 agent_keeps_paired) (proj2 agent_keeps_paired) eq_refl))
               w_corrupt (Some "true") (Some "{oops")
               eq_refl eq_refl eq_refl eq_refl eq_refl eq_refl)).
    vm_compute. reflexivity.
Defined.

(** ** More on the identity formatter *)

Lemma lower_char_not_capital c : is_capital (lower_char c) = false.
Proof. destruct c as [[] [] [] [] [] [] [] []]; vm_compute; reflexivity. Qed.

Lemma lower_char_fixed c : is_capital c = false -> lower_char c = c.
Proof. unfold lower_char, is_capital. intros ->. reflexivity. Qed.

Lemma not_capital_not_upper c : is_capital c = false -> is_upper c = false.
Proof. unfold is_capital. intros H. apply orb_false_iff in H as [H _]. exact H. Qed.

Lemma every_weaken (p q : ascii -> bool) s :
  (forall c, p c = true -> q c = true) -> every p s = true -> every q s = true.
Proof.
  intros Hpq. induction s as [| c s IH]; simpl; [reflexivity |].
  intros H. apply andb_true_iff in H as [Hc Hs].
  rewrite (Hpq c Hc), (IH Hs). reflexivity.
Qed.

Lemma no_capital_no_upper s :
  every (fun c => negb (is_capital c)) s = true ->
  every (fun c => negb (is_upper c)) s = true.
Proof.
  apply every_weaken. intros c Hc. apply negb_true_iff in Hc.
  rewrite (not_capital_not_upper c Hc). reflexivity.
Qed.

Lemma lower_no_capital s : every (fun c => negb (is_capital c)) (lower s) = true.
Proof.
  induction s as [| c s IH]; simpl; [reflexivity |].
  rewrite lower_char_not_capital, IH. reflexivity.
Qed.

Lemma lower_fixed s : every (fun c => negb (is_capital c)) s = true -> lower s = s.
Proof.
  induction s as [| c s IH]; simpl; [reflexivity |].
  intros H. apply andb_true_iff in H as [Hc Hs].
  apply negb_true_iff in Hc. rewrite (lower_char_fixed c Hc), (IH Hs). reflexivity.
Qed.

(** Where the pattern matches nowhere, [re.sub] returns the subject. *)
Lemma re_sub_no_match (p : ascii -> bool) pat s :
  (forall t, every p t = true -> pat t = None) ->
  every p s = true -> re_sub pat 0 s = s.
Proof.
  intros Hpat. induction s as [| c s IH]; [reflexivity |].
  intros H. simpl. rewrite (Hpat _ H).
  simpl in H. apply andb_true_iff in H as [_ Hs]. rewrite (IH Hs). reflexivity.
Qed.

(** Both patterns need a capital of [[A-Z]]. *)
Lemma pat_word_needs_upper t :
  every (fun c => negb (is_upper c)) t = true -> pat_word t = None.
Proof.
  destruct t as [| c0 [| c1 [| c2 r]]]; try reflexivity.
  simpl. intros H. apply andb_true_iff in H as [_ H].
  apply andb_true_iff in H as [H _]. apply negb_true_iff in H.
  rewrite H, andb_false_r. reflexivity.
Qed.

Lemma pat_boundary_needs_upper t :
  every (fun c => negb (is_upper c)) t = true -> pat_boundary t = None.
Proof.
  destruct t as [| c0 [| c1 r]]; try reflexivity.
  simpl. intros H. apply andb_true_iff in H as [_ H].
  apply andb_true_iff in H as [H _]. apply negb_true_iff in H.
  rewrite H, andb_false_r. reflexivity.
Qed.

Lemma kebab_fixes_lowercase name :
  every (fun c => negb (is_capital c)) name = true -> _camel_to_kebab name = name.
Proof.
  intros H. unfold _camel_to_kebab.
  assert (Hu := no_capital_no_upper name H).
  rewrite (re_sub_no_match _ _ _ pat_word_needs_upper Hu).
  rewrite (re_sub_no_match _ _ _ pat_boundary_needs_upper Hu).
  apply lower_fixed. exact H.
Qed.

(** X1: for every name, the result of [_camel_to_kebab] holds no letter of
    [A-Z]; applying the function to its own result changes nothing; and the
    names it returns unchanged are exactly those without a capital letter. *)
Theorem camel_to_kebab_lowers_once name :
  every (fun c => negb (is_upper c)) (_camel_to_kebab name) = true /\
  _camel_to_kebab (_camel_to_kebab name) = _camel_to_kebab name /\
  (_camel_to_kebab name = name <-> every (fun c => negb (is_capital c)) name = true).
Proof.
  assert (Hc : every (fun c => negb (is_capital c)) (_camel_to_kebab name) = true)
    by apply lower_no_capital.
  split; [| split].
  - apply no_capital_no_upper. exact Hc.
  - apply kebab_fixes_lowercase. exact Hc.
  - split.
    + intros <-. exact Hc.
    + apply kebab_fixes_lowercase.
Qed.

Lemma without_append x a b : without x (a +:+ b) = without x a +:+ without x b.
Proof.
  induction a as [| c a IH]; simpl; [reflexivity |].
  destruct (Ascii.eqb c x); simpl; rewrite IH; reflexivity.
Qed.

Lemma re_sub_skip pat k : forall s, re_sub pat k s = re_sub pat 0 (str_drop k s).
Proof.
  induction k as [| k IH]; intros s.
  - destruct s; reflexivity.
  - destruct s as [| c s]; [reflexivity |]. simpl. apply IH.
Qed.

Lemma str_drop_length k : forall s, (String.length (str_drop k s) <= String.length s)%nat.
Proof.
  induction k as [| k IH]; intros s.
  - destruct s; simpl; lia.
  - destruct s as [| c s]; simpl; [lia |]. specialize (IH s). lia.
Qed.

Lemma lower_run_prefix s : lower_run s +:+ str_drop (String.length (lower_run s)) s = s.
Proof.
  induction s as [| c s IH]; [reflexivity |].
  simpl. destruct (is_lower c); [| reflexivity].
  transitivity (String c (lower_run s +:+ str_drop (String.length (lower_run s)) s));
    [reflexivity | rewrite IH; reflexivity].
Qed.

Lemma re_sub_hyphenating pat :
  hyphenating pat -> forall s, without "-" (re_sub pat 0 s) = without "-" s.
Proof.
  intros Hpat s.
  assert (H : forall n s, (String.length s <= n)%nat ->
                without "-" (re_sub pat 0 s) = without "-" s).
  { clear s. induction n as [| n IH]; intros s Hn.
    - destruct s; [reflexivity | simpl in Hn; lia].
    - destruct s as [| c rest]; [reflexivity |].
      simpl in Hn. simpl re_sub.
      destruct (pat (String c rest)) as [[repl k] |] eqn:E.
      + destruct (Hpat _ _ _ E) as [Hk Hw].
        rewrite without_append, re_sub_skip, IH.
        * rewrite <- Hw. destruct k as [| k]; [lia | reflexivity].
        * pose proof (str_drop_length (Nat.pred k) rest). lia.
      + simpl. rewrite IH by lia. reflexivity. }
  apply (H (String.length s)). lia.
Qed.

Lemma pat_word_hyphenating : hyphenating pat_word.
Proof.
  intros s repl n H.
  destruct s as [| c0 [| c1 [| c2 rest]]]; try discriminate.
  simpl in H. destruct (is_dot c0 && is_upper c1 && is_lower c2); [| discriminate].
  injection H as <- <-. split; [lia |].
  set (run := lower_run rest).
  transitivity (without "-" (String c0 (String c1 (String c2 run))
                             +:+ str_drop (String.length run) rest)).
  - rewrite without_append. f_equal;
      try (simpl; destruct (Ascii.eqb c0 "-"); reflexivity).
  - f_equal.
    transitivity (String c0 (String c1 (String c2
                    (run +:+ str_drop (String.length run) rest)))); [reflexivity |].
    unfold run. rewrite lower_run_prefix. reflexivity.
Qed.

Lemma pat_boundary_hyphenating : hyphenating pat_boundary.
Proof.
  intros s repl n H.
  destruct s as [| c0 [| c1 rest]]; try discriminate.
  simpl in H. destruct ((is_lower c0 || is_digit c0) && is_upper c1); [| discriminate].
  injection H as <- <-. split; [lia |].
  simpl. destruct (Ascii.eqb c0 "-"), (Ascii.eqb c1 "-"); reflexivity.
Qed.

(** X2: [_camel_to_kebab] lower-cases a text that is the name with hyphens
    inserted and nothing else changed: with the hyphens taken out, that text
    is the name with its hyphens taken out.  So the two substitutions drop,
    add and move no character but the hyphens they insert. *)
Theorem camel_to_kebab_only_adds_hyphens name :
  exists hyphenated,
    _camel_to_kebab name = lower hyphenated /\
    without "-" hyphenated = without "-" name.
Proof.
  exists (re_sub pat_boundary 0 (re_sub pat_word 0 name)).
  split; [reflexivity |].
  rewrite (re_sub_hyphenating _ pat_boundary_hyphenating).
  apply (re_sub_hyphenating _ pat_word_hyphenating).
Qed.

(** ** The router of entry.py *)

Lemma str_split_not_nil sep s : str_split sep s <> [].
Proof.
  destruct s as [| c s]; simpl; [discriminate |].
  destruct (Ascii.eqb c sep); [discriminate |].
  destruct (str_split sep s); discriminate.
Qed.

(** No piece of a split holds the separator. *)
Lemma str_split_pieces sep s p :
  In p (str_split sep s) -> every (fun c => negb (Ascii.eqb c sep)) p = true.
Proof.
  revert p. induction s as [| c s IH]; intros p; simpl.
  - intros [<- | []]. reflexivity.
  - destruct (Ascii.eqb c sep) eqn:E.
    + intros [<- | H]; [reflexivity | apply IH; exact H].
    + destruct (str_split sep s) as [| q qs] eqn:Es.
      * intros [<- | []]. simpl. rewrite E. reflexivity.
      * intros [<- | H].
        -- simpl. rewrite E. simpl. apply IH. left. reflexivity.
        -- apply IH. right. exact H.
Qed.

(** A piece without the separator, followed by the separator, is the first
    piece of the split. *)
Lemma str_split_first sep a b :
  every (fun c => negb (Ascii.eqb c sep)) a = true ->
  str_split sep (a +:+ String sep b) = a :: str_split sep b.
Proof.
  induction a as [| c a IH]; intros H.
  - change (EmptyString +:+ String sep b) with (String sep b).
    simpl. rewrite Ascii.eqb_refl. reflexivity.
  - simpl in H. apply andb_true_iff in H as [Hc Ha]. apply negb_true_iff in Hc.
    change (String c a +:+ String sep b) with (String c (a +:+ String sep b)).
    simpl. rewrite Hc, (IH Ha). reflexivity.
Qed.

Lemma str_split_whole sep a :
  every (fun c => negb (Ascii.eqb c sep)) a = true -> str_split sep a = [a].
Proof.
  induction a as [| c a IH]; intros H; [reflexivity |].
  simpl in H. apply andb_true_iff in H as [Hc Ha]. apply negb_true_iff in Hc.
  simpl. rewrite Hc, (IH Ha). reflexivity.
Qed.

(** X3: whenever [Default.fetch] forwards a request to a Durable Object, the
    instance name is not empty and holds no slash. *)
Theorem instance_names_are_segments path name :
  Default.fetch path = ToAgent name ->
  name <> "" /\ every (fun c => negb (Ascii.eqb c "/")) name = true.
Proof.
  unfold Default.fetch.
  destruct (String.eqb path "/" || String.eqb path ""); [discriminate |].
  destruct (String.prefix "/agent" path); [| discriminate].
  intros H. injection H as <-. unfold Default.instance_name.
  destruct (str_split "/" path) as [| p0 [| p1 [| p2 ps]]] eqn:E;
    try (split; [discriminate | reflexivity]).
  destruct (String.eqb p2 "") eqn:E2; simpl.
  - split; [discriminate | reflexivity].
  - split.
    + intros ->. discriminate.
    + apply (str_split_pieces "/" path). rewrite E. right. right. left. reflexivity.
Qed.

Lemma instance_names_are_segments_witness :
  Default.fetch "/agent/room-1/ws" = ToAgent "room-1" /\
  "room-1" <> "" /\ every (fun c => negb (Ascii.eqb c "/")) "room-1" = true.
Proof.
  split; [reflexivity |].
  exact (instance_names_are_segments "/agent/room-1/ws" "room-1" eq_refl).
Defined.

Lemma instance_of_split seg parts :
  every (fun c => negb (Ascii.eqb c "/")) seg = true ->
  str_split "/" ("/agent" +:+ seg +:+ "/" +:+ parts)
  = "" :: ("agent" +:+ seg) :: str_split "/" parts.
Proof.
  intros H.
  change ("/agent" +:+ seg +:+ "/" +:+ parts)
    with (String "/" (("agent" +:+ seg) +:+ String "/" parts)).
  change (str_split "/" (String "/" (("agent" +:+ seg) +:+ String "/" parts)))
    with ("" :: str_split "/" (("agent" +:+ seg) +:+ String "/" parts)).
  rewrite str_split_first; [reflexivity |].
  exact H.
Qed.

(** X4: every path that begins with /agent is forwarded, whatever follows
    the prefix up to the next slash (so /agents/x is, too).  The instance is
    named by the segment after that slash; it is [default] when the path
    ends before that segment or the segment is empty. *)
Theorem agent_prefix_routes_to_instance seg name tail :
  every (fun c => negb (Ascii.eqb c "/")) seg = true ->
  every (fun c => negb (Ascii.eqb c "/")) name = true ->
  let chosen := if String.eqb name "" then "default" else name in
  Default.fetch ("/agent" +:+ seg) = ToAgent "default" /\
  Default.fetch ("/agent" +:+ seg +:+ "/" +:+ name) = ToAgent chosen /\
  Default.fetch ("/agent" +:+ seg +:+ "/" +:+ name +:+ "/" +:+ tail) = ToAgent chosen.
Proof.
  intros Hseg Hname chosen.
  assert (Hroute : forall rest,
            Default.fetch ("/agent" +:+ rest)
            = ToAgent (Default.instance_name (str_split "/" ("/agent" +:+ rest)))).
  { intros rest.
    change ("/agent" +:+ rest)
      with (String "/" (String "a" (String "g" (String "e" (String "n" (String "t" rest)))))).
    destruct rest; reflexivity. }
  split; [| split].
  - rewrite Hroute.
    change ("/agent" +:+ seg) with (String "/" ("agent" +:+ seg)).
    change (str_split "/" (String "/" ("agent" +:+ seg)))
      with ("" :: str_split "/" ("agent" +:+ seg)).
    rewrite (str_split_whole "/" ("agent" +:+ seg) Hseg). reflexivity.
  - rewrite Hroute, (instance_of_split seg name Hseg).
    rewrite (str_split_whole "/" name Hname). unfold Default.instance_name, chosen.
    destruct (String.eqb name ""); reflexivity.
  - rewrite Hroute, (instance_of_split seg _ Hseg).
    change (name +:+ "/" +:+ tail) with (name +:+ String "/" tail).
    rewrite (str_split_first "/" name tail Hname).
    unfold Default.instance_name, chosen.
    destruct (String.eqb name ""); reflexivity.
Qed.

Lemma agent_prefix_routes_to_instance_witness :
  Default.fetch "/agents" = ToAgent "default" /\
  Default.fetch "/agents/room-1" = ToAgent "room-1" /\
  Default.fetch "/agents/room-1/ws" = ToAgent "room-1".
Proof.
  exact (agent_prefix_routes_to_instance "s" "room-1" "ws" eq_refl eq_refl).
Defined.

(** ** What the agent does to the attribute and to the table *)

Section MoreReads.

Variable json_loads : decoder.
Variable cls : AgentClass.

(** With both rows and a payload that loads, the read caches the value. *)
Lemma state_loads w m p j :
  cache w = None ->
  table w !! STATE_WAS_CHANGED = Some m ->
  table w !! STATE_ROW_ID = Some p ->
  loads_row json_loads p = Some j ->
  state json_loads cls w = Ok (Some (PJson j)) (with_cache (Some (PJson j)) w).
Proof.
  intros Hc Hm Hp Hl. unfold state.
  rewrite (bind_Ok _ _ _ _ _ (eq_refl : get_cache w = Ok (cache w) w)).
  rewrite Hc. unfold bind at 1. unfold sql_select at 1. rewrite Hm. simpl.
  unfold bind at 1. unfold sql_select at 1. rewrite Hp. rewrite Hl.
  reflexivity.
Qed.

(** With the marker row and no state row, the read returns the attribute
    as it is. *)
Lemma state_marker_only w m :
  cache w = None ->
  table w !! STATE_WAS_CHANGED = Some m ->
  table w !! STATE_ROW_ID = None ->
  state json_loads cls w = Ok None w.
Proof.
  intros Hc Hm Hp. unfold state.
  rewrite (bind_Ok _ _ _ _ _ (eq_refl : get_cache w = Ok (cache w) w)).
  rewrite Hc. unfold bind at 1. unfold sql_select at 1. rewrite Hm. simpl.
  unfold bind at 1. unfold sql_select at 1. rewrite Hp.
  unfold get_cache. rewrite Hc. reflexivity.
Qed.

End MoreReads.

(** The fan-out changes neither the attribute nor the table. *)
Lemma for_each_send_frame msg src wss : forall w,
  cache (world_of (for_each wss (send_state msg src) w)) = cache w /\
  table (world_of (for_each wss (send_state msg src) w)) = table w.
Proof.
  induction wss as [| ws wss IH]; intros w; [split; reflexivity |].
  simpl. unfold bind.
  assert (Hs : cache (world_of (send_state msg src ws w)) = cache w /\
               table (world_of (send_state msg src ws w)) = table w).
  { unfold send_state. destruct src as [s |].
    - destruct (Nat.eqb ws s); [split; reflexivity |].
      destruct (ws_send_frame ws msg w) as [Hc [Ht _]]. split; assumption.
    - destruct (ws_send_frame ws msg w) as [Hc [Ht _]]. split; assumption. }
  destruct (send_state msg src ws w) as [[] w' | e w']; simpl in Hs |- *.
  - destruct (IH w') as [Hc Ht]. destruct Hs as [Hc' Ht'].
    rewrite Hc, Ht. split; assumption.
  - exact Hs.
Qed.

Lemma broadcast_frame v src w :
  cache (world_of (broadcast_state v src w)) = cache w /\
  table (world_of (broadcast_state v src w)) = table w.
Proof.
  unfold broadcast_state. destruct v as [j | e]; [| split; reflexivity].
  simpl lift. unfold bind at 1. unfold ret at 1.
  unfold bind at 1. unfold getWebSockets at 1.
  apply for_each_send_frame.
Qed.

Section Keeping.

Variable I : world -> Prop.

Lemma inv_ret {A} (a : A) : keeps I (ret a).
Proof. intros w Hw. exact Hw. Qed.

Lemma inv_raise {A} e : keeps I (@raise A e).
Proof. intros w Hw. exact Hw. Qed.

Lemma inv_lift {A} (r : exn + A) : keeps I (lift r).
Proof. destruct r; [apply inv_raise | apply inv_ret]. Qed.

Lemma inv_bind {A B} (m : M A) (k : A -> M B) :
  keeps I m -> (forall a, keeps I (k a)) -> keeps I (bind m k).
Proof.
  intros Hm Hk w Hw. unfold bind. specialize (Hm w Hw).
  destruct (m w) as [a w' | e w']; simpl in *; [apply Hk; exact Hm | exact Hm].
Qed.

Lemma inv_try {A} (m : M A) h :
  keeps I m -> (forall e, keeps I (h e)) -> keeps I (try_except m h).
Proof.
  intros Hm Hh w Hw. unfold try_except. specialize (Hm w Hw).
  destruct (m w) as [a w' | e w']; simpl in *; [exact Hm | apply Hh; exact Hm].
Qed.

End Keeping.

Section Closed.

Variable json_loads : decoder.
Variable cls : AgentClass.
Variable I : world -> Prop.
Hypothesis I_closed : agent_closed json_loads I.
Hypothesis hooks_ok : hooks_keep I cls.
Hypothesis methods_ok : methods_keep I cls.

(** A step that leaves the attribute and the table alone keeps [I]. *)
Lemma inv_frame {A} (m : M A) :
  (forall w, cache (world_of (m w)) = cache w /\ table (world_of (m w)) = table w) ->
  keeps I m.
Proof.
  intros H w Hw. destruct (H w) as [Hc Ht].
  exact (closed_frame _ _ I_closed w _ Hc Ht Hw).
Qed.

Lemma inv_ws_send ws text : keeps I (ws_send ws text).
Proof.
  apply inv_frame. intros w.
  destruct (ws_send_frame ws text w) as [Hc [Ht _]]. split; assumption.
Qed.

Lemma inv_set_state_internal v src : keeps I (_set_state_internal cls v src).
Proof.
  intros w Hw. destruct v as [j | e].
  - unfold _set_state_internal.
    rewrite (bind_Ok _ _ _ _ _ (persist_state_ok j w)).
    apply inv_bind; [| intros _; apply (keep_changed I cls hooks_ok) |].
    + apply inv_frame. intros w'. apply broadcast_frame.
    + apply (closed_write _ _ I_closed). exact Hw.
  - rewrite set_state_internal_fail. apply (closed_fail _ _ I_closed). exact Hw.
Qed.

Lemma inv_state : keeps I (state json_loads cls).
Proof.
  intros w Hw. destruct (cache w) as [v |] eqn:Hc.
  - rewrite (state_cached json_loads cls w v Hc). exact Hw.
  - destruct (table w !! STATE_WAS_CHANGED) as [m |] eqn:Hm.
    + destruct (table w !! STATE_ROW_ID) as [p |] eqn:Hp.
      * destruct (loads_row json_loads p) as [j |] eqn:Hl.
        -- rewrite (state_loads json_loads cls w m p j Hc Hm Hp Hl).
           apply (closed_load _ _ I_closed w p j Hw); [eauto | exact Hp | exact Hl].
        -- destruct (is_instance ["JSONDecodeError"; "TypeError"] (row_exn json_loads p))
             eqn:He.
           ++ rewrite (state_corrupt json_loads cls w m p Hc Hm Hp Hl He).
              destruct (initial_state cls) as [d |].
              ** change ((_set_state_internal cls d None >> get_cache)
                           (with_cache (Some d) w))
                   with ((_set_state_internal cls d None >> get_cache) w).
                 apply inv_bind; [apply inv_set_state_internal | | exact Hw].
                 intros _. apply inv_frame. intros w'. split; reflexivity.
              ** apply (closed_recover _ _ I_closed w p Hw Hc Hp Hl).
           ++ rewrite (state_uncaught json_loads cls w m p Hc Hm Hp Hl He). exact Hw.
      * rewrite (state_marker_only json_loads cls w m Hc Hm Hp). exact Hw.
    + rewrite (state_no_marker json_loads cls w Hc Hm).
      destruct (initial_state cls) as [d |]; [| exact Hw].
      apply inv_bind; [apply inv_set_state_internal | | exact Hw].
      intros _. apply inv_ret.
Qed.

Lemma inv_fetch req : keeps I (fetch json_loads cls req).
Proof.
  unfold fetch. destruct (wants_websocket req).
  - apply inv_bind; [apply inv_frame; intros w; split; reflexivity | intros pair].
    apply inv_bind; [apply inv_frame; intros w; split; reflexivity | intros _].
    apply inv_bind; [apply inv_frame; intros w; split; reflexivity | intros name].
    apply inv_bind; [apply inv_ws_send | intros _].
    apply inv_bind; [apply inv_state | intros current].
    apply inv_bind.
    + destruct (is_not_None current); [| apply inv_ret].
      apply inv_bind; [apply inv_lift | intros msg; apply inv_ws_send].
    + intros _. apply inv_bind; [apply (keep_connect I cls hooks_ok) | intros _; apply inv_ret].
  - apply inv_bind; [apply inv_state | intros current].
    apply inv_bind; [apply inv_lift | intros text; apply inv_ret].
Qed.

Lemma inv_handle_rpc ws parsed : keeps I (_handle_rpc json_loads cls ws parsed).
Proof.
  unfold _handle_rpc.
  apply inv_bind; [apply inv_lift | intros rpc_id].
  apply inv_bind; [apply inv_lift | intros method_name].
  apply inv_bind; [apply inv_lift | intros args].
  destruct (hashable_str method_name) as [text |]; [| apply inv_raise].
  destruct (find_callable cls method_name) as [m |] eqn:E; [| apply inv_ws_send].
  assert (Hm : exists name, members cls !! name = Some (Function m)).
  { destruct method_name; try discriminate. simpl in E.
    apply callable_lookup in E as [_ [Hm _]]. eauto. }
  destruct Hm as [name Hm].
  apply inv_try; [| intros e; apply inv_ws_send].
  apply inv_bind; [apply inv_lift | intros argv].
  apply inv_bind.
  - apply (methods_ok name m (self json_loads cls) argv Hm).
    + apply inv_state.
    + intros v. apply inv_set_state_internal.
  - intros result. apply inv_bind; [apply inv_lift | intros out; apply inv_ws_send].
Qed.

Lemma inv_message ws m : keeps I (webSocketMessage json_loads cls ws m).
Proof.
  unfold webSocketMessage. destruct m as [s | b]; [| apply (keep_message I cls hooks_ok)].
  destruct (json_loads s) as [parsed |];
    [| destruct (is_instance ["JSONDecodeError"] (decode_exn json_loads s));
       [apply (keep_message I cls hooks_ok) | apply inv_raise]].
  apply inv_bind; [apply inv_lift | intros msg_type].
  destruct (eq_str msg_type CF_AGENT_STATE).
  - apply inv_bind; [apply inv_lift | intros new_state].
    apply inv_try; [apply inv_set_state_internal | intros e; apply inv_ws_send].
  - destruct (eq_str msg_type RPC); [apply inv_handle_rpc |].
    apply (keep_message I cls hooks_ok).
Qed.

Lemma inv_step ev w : I w -> I (step json_loads cls ev w).
Proof.
  intros Hw. destruct ev; simpl.
  - apply (closed_init _ _ I_closed). exact Hw.
  - apply inv_state. exact Hw.
  - apply inv_set_state_internal. exact Hw.
  - apply inv_fetch. exact Hw.
  - apply inv_message. exact Hw.
  - apply (keep_close I cls hooks_ok). exact Hw.
  - apply (keep_error I cls hooks_ok). exact Hw.
Qed.

Lemma inv_run evs : forall w, I w -> I (run json_loads cls evs w).
Proof.
  induction evs as [| ev evs IH]; intros w Hw; simpl.
  - exact Hw.
  - apply IH. apply inv_step. exact Hw.
Qed.

End Closed.

Lemma same_user_rows_closed (json_loads : decoder) w0 : agent_closed json_loads (same_user_rows w0).
Proof.
  split; unfold same_user_rows.
  - intros w w' _ Ht H id H1 H2. rewrite Ht. apply H; assumption.
  - intros w H. exact H.
  - intros w p j H _ _ _. exact H.
  - intros w j H id H1 H2. simpl.
    rewrite !lookup_insert_ne by congruence. apply H; assumption.
  - intros w e H. exact H.
  - intros w p H _ _ _ id H1 H2. simpl.
    rewrite !lookup_delete_ne by congruence. apply H; assumption.
Qed.


(** [pass] keeps everything. *)
Lemma counter_hooks_keep I : hooks_keep I CounterAgent.
Proof. split; intros; exact (fun w Hw => Hw). Qed.

Lemma counter_methods_keep I : methods_keep I CounterAgent.
Proof.
  intros name m api argv Hm _ Hs. simpl in Hm.
  apply lookup_insert_Some in Hm as [[_ Hm] | [_ Hm]].
  - injection Hm as <-. simpl. unfold reset_body. destruct argv.
    + apply inv_bind; [apply Hs | intros _; apply inv_ret].
    + apply inv_raise.
  - exfalso. exact (agent_members_other name m Hm).
Qed.

(** X5: for a class whose hooks and functions leave the rows of other ids
    alone, no sequence of events changes a row whose id is neither of the two
    reserved ones: the agent itself writes and deletes only
    [cf_state_row_id] and [cf_state_was_changed]. *)
Theorem other_rows_are_left_alone (json_loads : decoder) cls w0 evs id :
  hooks_keep (same_user_rows w0) cls ->
  methods_keep (same_user_rows w0) cls ->
  id <> STATE_ROW_ID -> id <> STATE_WAS_CHANGED ->
  table (run json_loads cls evs w0) !! id = table w0 !! id.
Proof.
  intros Hh Hm H1 H2.
  apply (inv_run json_loads cls (same_user_rows w0)
           (same_user_rows_closed json_loads w0) Hh Hm evs w0); [| exact H1 | exact H2].
  intros id' _ _. reflexivity.
Qed.

Lemma other_rows_are_left_alone_witness :
  table (run Decoder.loads CounterAgent session w_user_row) !! "note"
  = Some (Some "remember").
Proof.
  exact (other_rows_are_left_alone Decoder.loads CounterAgent w_user_row session "note"
           (counter_hooks_keep _) (counter_methods_keep _)
           ltac:(discriminate) ltac:(discriminate)).
Defined.



(** ** More on reading and writing the state *)

(** X7: on a new instance whose marker row is there and whose state row is
    missing, the read of the state returns the sentinel [_UNSET] itself and
    changes nothing.  A plain request then raises the [TypeError] of
    [json.dumps] on the sentinel; an upgrade request raises it after the
    server end was accepted and the identity frame sent, before
    [on_connect]. *)
Theorem marker_without_state_row (json_loads : decoder) cls w m :
  cache w = None ->
  table w !! STATE_WAS_CHANGED = Some m ->
  table w !! STATE_ROW_ID = None ->
  state json_loads cls w = Ok None w /\
  (forall req, wants_websocket req = false ->
     fetch json_loads cls req w = Raise (not_serializable "object") w) /\
  (forall req, wants_websocket req = true ->
     broken w !! S (next_ws w) = None ->
     fetch json_loads cls req w
     = Raise (not_serializable "object")
         (with_outbox (outbox w ++ [(S (next_ws w),
                                     json_dumps (identity_message cls (ctx_id w)))])
            (with_sockets (sockets w ++ [S (next_ws w)])
               (with_next_ws (S (S (next_ws w))) w)))).
Proof.
  intros Hc Hm Hp. split; [| split].
  - exact (state_marker_only json_loads cls w m Hc Hm Hp).
  - intros req Hreq. unfold fetch. rewrite Hreq.
    rewrite (bind_Ok _ _ _ _ _ (state_marker_only json_loads cls w m Hc Hm Hp)).
    reflexivity.
  - intros req Hreq Hb. unfold fetch. rewrite Hreq.
    unfold bind at 1. unfold WebSocketPair_new at 1.
    unfold bind at 1. unfold acceptWebSocket at 1.
    unfold bind at 1. cbv beta iota. simpl fst. simpl snd.
    set (w1 := with_sockets _ _).
    rewrite (bind_Ok _ _ _ _ _
               (ws_send_ok (S (next_ws w)) (json_dumps (identity_message cls (ctx_id w1))) w1 Hb)).
    set (w2 := with_outbox _ w1).
    rewrite (bind_Ok _ _ _ _ _ (state_marker_only json_loads cls w2 m Hc Hm Hp)).
    reflexivity.
Qed.

Lemma marker_without_state_row_witness :
  state Decoder.loads CounterAgent w_marker_only = Ok None w_marker_only /\
  fetch Decoder.loads CounterAgent (Request None) w_marker_only
  = Raise (TypeError "Object of type object is not JSON serializable") w_marker_only.
Proof.
  destruct (marker_without_state_row Decoder.loads CounterAgent w_marker_only (Some "true")
              eq_refl eq_refl eq_refl) as [Hs [Hf _]].
  split; [exact Hs | exact (Hf (Request None) eq_refl)].
Defined.

(** X8: a value written with [set_state] is read back by the instance built
    next over the same storage, provided [json.loads] decodes what
    [json.dumps] wrote for it and the hook left the two rows as written:
    write, construction and read end with the value returned and held, and
    the read writes no row and sends no frame. *)
Theorem stored_state_survives_eviction (json_loads : decoder) cls j w w2 m :
  healthy w None (sockets w) ->
  json_loads (json_dumps j) = Some j ->
  on_state_changed cls (PJson j)
    (written (PJson j) (json_dumps j) (json_dumps (state_message j)) (sockets w) w)
  = Ok tt w2 ->
  table w2 !! STATE_WAS_CHANGED = Some m ->
  table w2 !! STATE_ROW_ID = Some (Some (json_dumps j)) ->
  (set_state cls (PJson j) >> __init__ >> state json_loads cls) w
  = Ok (Some (PJson j)) (with_cache (Some (PJson j)) w2).
Proof.
  intros Hh Hl Hk Hm Hp.
  assert (Hset : set_state cls (PJson j) w = Ok tt w2).
  { unfold set_state. rewrite (set_state_internal_ok cls j None w Hh).
    rewrite recipients_all. exact Hk. }
  rewrite (bind_Ok _ _ _ _ _ Hset).
  unfold bind at 1. unfold __init__ at 1. unfold set_cache at 1.
  rewrite (state_loads json_loads cls (with_cache None w2) m (Some (json_dumps j)) j
             eq_refl Hm Hp Hl).
  reflexivity.
Qed.

Lemma stored_state_survives_eviction_witness :
  (set_state Agent (PJson counter_reset) >> __init__ >> state Decoder.loads Agent)
    w_one_socket
  = Ok (Some (PJson counter_reset))
       (written (PJson counter_reset) (json_dumps counter_reset)
          (json_dumps (state_message counter_reset)) [1] w_one_socket).
Proof.
  exact (stored_state_survives_eviction Decoder.loads Agent counter_reset w_one_socket
           _ (Some "true") (healthy_empty w_one_socket None [1] eq_refl)
           eq_refl eq_refl eq_refl eq_refl).
Defined.

Lemma rewrite_rows (t : gmap string (option string)) a b :
  <[STATE_WAS_CHANGED := a]> (<[STATE_ROW_ID := b]>
    (<[STATE_WAS_CHANGED := a]> (<[STATE_ROW_ID := b]> t)))
  = <[STATE_WAS_CHANGED := a]> (<[STATE_ROW_ID := b]> t).
Proof.
  apply map_eq. intros i.
  destruct (decide (i = STATE_WAS_CHANGED)) as [-> | H1].
  - rewrite !lookup_insert_eq. reflexivity.
  - rewrite (lookup_insert_ne _ STATE_WAS_CHANGED i) by congruence.
    destruct (decide (i = STATE_ROW_ID)) as [-> | H2].
    + rewrite !lookup_insert_eq.
      rewrite (lookup_insert_ne _ STATE_WAS_CHANGED STATE_ROW_ID) by discriminate.
      rewrite lookup_insert_eq. reflexivity.
    + rewrite !lookup_insert_ne by congruence. reflexivity.
Qed.

(** X9: for a class whose [on_state_changed] leaves the table alone, the
    table after [_set_state_internal] depends on the value only, not on how
    the broadcast or the hook end: the two rows hold the serialization and
    [true] when the value serializes, and the table is as before when it does
    not.  Writing the same value a second time leaves the table as the first
    write left it. *)
Theorem rows_after_a_write_attempt cls v src w :
  (forall v' w', table (world_of (on_state_changed cls v' w')) = table w') ->
  table (world_of (_set_state_internal cls v src w))
  = match v with
    | PJson j => <[STATE_WAS_CHANGED := Some "true"]>
                   (<[STATE_ROW_ID := Some (json_dumps j)]> (table w))
    | PNotJson _ => table w
    end /\
  table (world_of (set_state cls v (world_of (set_state cls v w))))
  = table (world_of (set_state cls v w)).
Proof.
  intros Hk.
  assert (H : forall src w,
            table (world_of (_set_state_internal cls v src w))
            = match v with
              | PJson j => <[STATE_WAS_CHANGED := Some "true"]>
                             (<[STATE_ROW_ID := Some (json_dumps j)]> (table w))
              | PNotJson _ => table w
              end).
  { clear src w. intros src w. destruct v as [j | e]; [| reflexivity].
    unfold _set_state_internal.
    rewrite (bind_Ok _ _ _ _ _ (persist_state_ok j w)).
    set (w1 := with_table _ _).
    apply (inv_bind (fun w' => table w' = table w1)
             (broadcast_state (PJson j) src) (fun _ => on_state_changed cls (PJson j)));
      [| | reflexivity].
    - intros w' Hw'. rewrite <- Hw'. apply broadcast_frame.
    - intros _ w' Hw'. rewrite <- Hw'. apply Hk. }
  split; [apply H |].
  unfold set_state. rewrite !H. destruct v as [j | e]; [| reflexivity].
  apply rewrite_rows.
Qed.

Lemma rows_after_a_write_attempt_witness :
  table (world_of (_set_state_internal CounterAgent (PJson (JInt 5)) (Some 1) w_second_closed))
  = <[STATE_WAS_CHANGED := Some "true"]> (<[STATE_ROW_ID := Some "5"]> ∅).
Proof.
  exact (proj1 (rows_after_a_write_attempt CounterAgent (PJson (JInt 5)) (Some 1)
                  w_second_closed (fun _ _ => eq_refl))).
Defined.

(** X10: on a new instance with nothing stored, of a class without a
    default, the state reads as [None] and nothing is written.  A plain
    request answers 200 with the state [null]; an upgrade request accepts the
    server end, sends the identity frame and no state frame, runs
    [on_connect] and answers 101 with the client end. *)
Theorem agent_without_state (json_loads : decoder) cls w :
  cache w = None ->
  table w !! STATE_WAS_CHANGED = None ->
  initial_state cls = None ->
  state json_loads cls w = Ok (Some PyNone) w /\
  (forall req, wants_websocket req = false ->
     fetch json_loads cls req w
     = Ok (Response 200 (Some (json_dumps (snapshot_body cls JNull)))
             [("Content-Type", "application/json")] None) w) /\
  (forall req, wants_websocket req = true ->
     broken w !! S (next_ws w) = None ->
     fetch json_loads cls req w
     = (on_connect cls (S (next_ws w)) >>
        ret (Response 101 None [] (Some (next_ws w))))
         (with_outbox (outbox w ++ [(S (next_ws w),
                                     json_dumps (identity_message cls (ctx_id w)))])
            (with_sockets (sockets w ++ [S (next_ws w)])
               (with_next_ws (S (S (next_ws w))) w)))).
Proof.
  intros Hc Hm Hd.
  assert (Hs : forall w', cache w' = None -> table w' = table w ->
                 state json_loads cls w' = Ok (Some PyNone) w').
  { intros w' Hc' Ht'. rewrite (state_no_marker json_loads cls w' Hc'), Hd; [reflexivity |].
    rewrite Ht'. exact Hm. }
  split; [| split].
  - apply Hs; [exact Hc | reflexivity].
  - intros req Hreq. unfold fetch. rewrite Hreq.
    rewrite (bind_Ok _ _ _ _ _ (Hs w Hc eq_refl)). reflexivity.
  - intros req Hreq Hb. unfold fetch. rewrite Hreq.
    unfold bind at 1. unfold WebSocketPair_new at 1.
    unfold bind at 1. unfold acceptWebSocket at 1.
    unfold bind at 1. cbv beta iota. simpl fst. simpl snd.
    set (w1 := with_sockets _ _).
    rewrite (bind_Ok _ _ _ _ _
               (ws_send_ok (S (next_ws w)) (json_dumps (identity_message cls (ctx_id w1))) w1 Hb)).
    set (w2 := with_outbox _ w1).
    rewrite (bind_Ok _ _ _ _ _ (Hs w2 Hc eq_refl)).
    reflexivity.
Qed.

Lemma agent_without_state_witness :
  fetch Decoder.loads Agent (Request None) w_one_socket
  = Ok (Response 200 (Some (dq "{'agent': 'agent', 'state': null}"))
          [("Content-Type", "application/json")] None) w_one_socket /\
  (exists w', fetch Decoder.loads Agent (Request (Some "WebSocket")) w_one_socket
              = Ok (Response 101 None [] (Some 2)) w' /\
              outbox w' = [(3, dq "{'type': 'cf_agent_identity', 'name': 'a', 'agent': 'agent'}")] /\
              sockets w' = [1; 3]).
Proof.
  destruct (agent_without_state Decoder.loads Agent w_one_socket eq_refl eq_refl eq_refl)
    as [_ [Hp Hu]].
  split; [exact (Hp (Request None) eq_refl) |].
  eexists. split; [exact (Hu (Request (Some "WebSocket")) eq_refl eq_refl) |].
  split; reflexivity.
Defined.

(** ** More on remote calls *)

(** X11: a name is in the registry of callables exactly when it does not
    start with an underscore and its class attribute is a function carrying a
    true [_agent_callable].  So a function decorated with [callable] is
    registered under a public name and not under a private one, and a
    function that is not decorated is never registered. *)
Theorem callable_registry_exact cls name m :
  (_get_callable_methods cls !! name = Some m <->
   String.prefix "_" name = false /\
   members cls !! name = Some (Function m) /\
   _agent_callable m = true) /\
  (forall description streaming f,
     members cls !! name = Some (Function (callable description streaming f)) ->
     _get_callable_methods cls !! name
     = if String.prefix "_" name then None
       else Some (callable description streaming f)) /\
  (forall md qn f,
     members cls !! name = Some (Function (def md qn f)) ->
     _get_callable_methods cls !! name = None).
Proof.
  split; [apply callable_lookup |]. split.
  - intros d s f Hm. destruct (String.prefix "_" name) eqn:Hp.
    + destruct (_get_callable_methods cls !! name) as [m' |] eqn:E; [| reflexivity].
      apply callable_lookup in E as [Hp' _]. rewrite Hp in Hp'. discriminate.
    + apply callable_lookup. split; [exact Hp |]. split; [exact Hm | reflexivity].
  - intros md qn f Hm.
    destruct (_get_callable_methods cls !! name) as [m' |] eqn:E; [| reflexivity].
    apply callable_lookup in E as [_ [Hm' Hc]]. rewrite Hm in Hm'.
    injection Hm' as <-. discriminate.
Qed.

Lemma callable_registry_exact_witness :
  _get_callable_methods CounterAgent !! "reset" = Some reset_method /\
  _get_callable_methods Agent !! "set_state" = None.
Proof.
  split.
  - exact (proj1 (proj2 (callable_registry_exact CounterAgent "reset" reset_method))
             (Some "Reset the counter to zero") false
             (def "entry" "CounterAgent.reset" reset_body) eq_refl).
  - destruct (_get_callable_methods Agent !! "set_state") as [m |] eqn:E; [| reflexivity].
    apply (proj1 (callable_registry_exact Agent "set_state" m)) in E as [_ [E _]].
    vm_compute in E. discriminate.
Defined.

(** X12: the fields of a call are optional.  Without [method] the call is
    refused with [Method None is not callable]; without [args] a registered
    function is called with no argument; without [id] the answer carries the
    id [null]. *)
Theorem rpc_missing_fields (json_loads : decoder) cls ws items w :
  let rpc_id := default JNull (dict_lookup "id" items) in
  (dict_lookup "method" items = None ->
   broken w !! ws = None ->
   _handle_rpc json_loads cls ws (JDict items) w
   = Ok tt (with_outbox
              (outbox w ++ [(ws, json_dumps (rpc_error rpc_id "Method None is not callable"))])
              w)) /\
  (forall name m r w',
     dict_lookup "method" items = Some (JStr name) ->
     dict_lookup "args" items = None ->
     _get_callable_methods cls !! name = Some m ->
     body m (self json_loads cls) [] w = Ok (PJson r) w' ->
     broken w' !! ws = None ->
     _handle_rpc json_loads cls ws (JDict items) w
     = Ok tt (with_outbox (outbox w' ++ [(ws, json_dumps (rpc_result rpc_id r))]) w')).
Proof.
  intros rpc_id. split.
  - intros Hm Hb. unfold _handle_rpc, py_get. rewrite Hm. simpl lift.
    unfold bind at 1. unfold ret at 1. unfold bind at 1. unfold ret at 1.
    unfold bind at 1. unfold ret at 1. simpl.
    apply ws_send_ok. exact Hb.
  - intros name m r w' Hm Ha Hc Hcall Hb.
    rewrite (handle_rpc_unfold json_loads cls ws (JDict items) rpc_id name (JList []) w);
      [| reflexivity | simpl; rewrite Hm; reflexivity | simpl; rewrite Ha; reflexivity].
    rewrite Hc. unfold try_except. simpl lift.
    unfold bind at 1. unfold ret at 1.
    rewrite (bind_Ok _ _ _ _ _ Hcall). simpl lift.
    unfold bind at 1. unfold ret at 1.
    rewrite (ws_send_ok _ _ _ Hb). reflexivity.
Qed.

Lemma rpc_missing_fields_witness :
  (_handle_rpc Decoder.loads CounterAgent 1 (JDict [("type", JStr "rpc")]) w_one_socket
   = Ok tt (with_outbox
              [(1, dq "{'type': 'rpc', 'id': null, 'success': false, 'error': 'Method None is not callable'}")]
              w_one_socket)) /\
  (exists w',
     _handle_rpc Decoder.loads CounterAgent 1
       (JDict [("type", JStr "rpc"); ("method", JStr "reset")]) w_one_socket = Ok tt w' /\
     outbox w'
     = [(1, dq "{'type': 'cf_agent_state', 'state': {'count': 0, 'last_action': 'reset'}}");
        (1, dq "{'type': 'rpc', 'id': null, 'success': true, 'result': 0}")]).
Proof.
  split.
  - exact (proj1 (rpc_missing_fields Decoder.loads CounterAgent 1
                    [("type", JStr "rpc")] w_one_socket) eq_refl eq_refl).
  - eexists. split.
    + exact (proj2 (rpc_missing_fields Decoder.loads CounterAgent 1
                      [("type", JStr "rpc"); ("method", JStr "reset")] w_one_socket)
               "reset" reset_method (JInt 0) _ eq_refl eq_refl callable_reset
               eq_refl eq_refl).
    + vm_compute. reflexivity.
Defined.

(** X13: when the called function returns a value [json.dumps] rejects,
    the caller gets [success] false with the text of that [TypeError], and
    what the function did before it returned stays. *)
Theorem unserializable_result_is_reported
    (json_loads : decoder) cls ws parsed rpc_id name args m argv e w w' :
  py_get parsed "id" JNull = inr rpc_id ->
  py_get parsed "method" JNull = inr (JStr name) ->
  py_get parsed "args" (JList []) = inr args ->
  _get_callable_methods cls !! name = Some m ->
  star m args = inr argv ->
  body m (self json_loads cls) argv w = Ok (PNotJson e) w' ->
  broken w' !! ws = None ->
  _handle_rpc json_loads cls ws parsed w
  = Ok tt (with_outbox (outbox w' ++ [(ws, json_dumps (rpc_error rpc_id (exn_str e)))]) w').
Proof.
  intros Hi Hm Ha Hc Hs Hcall Hb.
  rewrite (handle_rpc_unfold json_loads cls ws parsed rpc_id name args w Hi Hm Ha), Hc.
  unfold try_except. rewrite Hs. simpl lift.
  unfold bind at 1. unfold ret at 1.
  rewrite (bind_Ok _ _ _ _ _ Hcall). simpl lift.
  unfold bind at 1. unfold raise at 1.
  apply ws_send_ok. exact Hb.
Qed.

Lemma unserializable_result_is_reported_witness :
  _handle_rpc Decoder.loads TagAgent 1
    (JDict [("type", JStr "rpc"); ("id", JInt 7); ("method", JStr "tags")]) w_one_socket
  = Ok tt (with_outbox
             [(1, dq "{'type': 'rpc', 'id': 7, 'success': false, 'error': 'Object of type set is not JSON serializable'}")]
             w_one_socket).
Proof.
  exact (unserializable_result_is_reported Decoder.loads TagAgent 1
           (JDict [("type", JStr "rpc"); ("id", JInt 7); ("method", JStr "tags")])
           (JInt 7) "tags" (JList [])
           (callable None false (def "probe" "TagAgent.tags" tags_body)) []
           (not_serializable "set") w_one_socket w_one_socket
           eq_refl eq_refl eq_refl eq_refl eq_refl eq_refl eq_refl).
Defined.

(** X14: a [method] that is not a string is never found.  A list or a dict
    makes the membership test raise [TypeError: unhashable type], which
    leaves [_handle_rpc] with nothing sent; any other value is refused with
    [Method <str(value)> is not callable]. *)
Theorem method_name_that_is_not_a_string (json_loads : decoder) cls ws parsed rpc_id mn w :
  py_get parsed "id" JNull = inr rpc_id ->
  py_get parsed "method" JNull = inr mn ->
  (forall s, mn <> JStr s) ->
  _handle_rpc json_loads cls ws parsed w
  = match hashable_str mn with
    | None => Raise (TypeError ("unhashable type: '" +:+ type_name mn +:+ "'")) w
    | Some text =>
        ws_send ws (json_dumps
          (rpc_error rpc_id ("Method " +:+ text +:+ " is not callable"))) w
    end.
Proof.
  intros Hi Hm Hn.
  destruct (py_get_dict parsed "id" JNull rpc_id "args" (JList []) Hi) as [args Ha].
  unfold _handle_rpc. rewrite Hi, Hm, Ha. simpl lift.
  unfold bind at 1. unfold ret at 1. unfold bind at 1. unfold ret at 1.
  unfold bind at 1. unfold ret at 1.
  destruct mn as [| b | z | r | s | l | d]; try reflexivity.
  - destruct b; reflexivity.
  - exfalso. exact (Hn s eq_refl).
Qed.

Lemma method_name_that_is_not_a_string_witness :
  _handle_rpc Decoder.loads CounterAgent 1
    (JDict [("id", JInt 7); ("method", JList [JStr "reset"])]) w_one_socket
  = Raise (TypeError "unhashable type: 'list'") w_one_socket /\
  _handle_rpc Decoder.loads CounterAgent 1
    (JDict [("id", JInt 7); ("method", JInt 5)]) w_one_socket
  = ws_send 1 (dq "{'type': 'rpc', 'id': 7, 'success': false, 'error': 'Method 5 is not callable'}")
      w_one_socket.
Proof.
  split.
  - exact (method_name_that_is_not_a_string Decoder.loads CounterAgent 1
             (JDict [("id", JInt 7); ("method", JList [JStr "reset"])]) (JInt 7)
             (JList [JStr "reset"]) w_one_socket eq_refl eq_refl
             ltac:(discriminate)).
  - exact (method_name_that_is_not_a_string Decoder.loads CounterAgent 1
             (JDict [("id", JInt 7); ("method", JInt 5)]) (JInt 7)
             (JInt 5) w_one_socket eq_refl eq_refl ltac:(discriminate)).
Defined.

(** X15: when the send on the calling socket raises once the call is over,
    the [except] clause sends on the same socket and raises as well:
    [_handle_rpc] ends with the exception of the socket, no answer is sent,
    and what the call did stays, however the call itself ended. *)
Theorem answer_on_a_closed_socket_raises
    (json_loads : decoder) cls ws parsed rpc_id name args m e w :
  py_get parsed "id" JNull = inr rpc_id ->
  py_get parsed "method" JNull = inr (JStr name) ->
  py_get parsed "args" (JList []) = inr args ->
  _get_callable_methods cls !! name = Some m ->
  let call := (argv <- lift (star m args) ;; body m (self json_loads cls) argv) in
  broken (world_of (call w)) !! ws = Some e ->
  _handle_rpc json_loads cls ws parsed w = Raise e (world_of (call w)).
Proof.
  intros Hi Hm Ha Hc call Hb.
  rewrite (handle_rpc_unfold json_loads cls ws parsed rpc_id name args w Hi Hm Ha), Hc.
  unfold try_except.
  assert (Hrun : exists e0,
            (argv <- lift (star m args) ;;
             result <- body m (self json_loads cls) argv ;;
             text <- lift (dumps_in (rpc_result rpc_id) result) ;;
             ws_send ws text) w = Raise e0 (world_of (call w))).
  { subst call. unfold bind in Hb |- *.
    destruct (lift (star m args) w) as [argv w0 | e0 w0]; [| eauto].
    destruct (body m (self json_loads cls) argv w0) as [[r | e1] w1 | e1 w1];
      simpl in Hb |- *; [| eauto | eauto].
    unfold ret. rewrite (ws_send_broken _ _ _ _ Hb). eauto. }
  destruct Hrun as [e0 ->]. apply ws_send_broken. exact Hb.
Qed.

Lemma answer_on_a_closed_socket_raises_witness :
  _handle_rpc Decoder.loads CounterAgent 3 (reset_call (JInt 7) []) w_second_closed
  = Raise closed_socket
      (written (PJson counter_reset) (json_dumps counter_reset)
         (json_dumps (state_message counter_reset)) [1] w_second_closed).
Proof.
  exact (answer_on_a_closed_socket_raises Decoder.loads CounterAgent 3
           (reset_call (JInt 7) []) (JInt 7) "reset" (JList []) reset_method closed_socket
           w_second_closed eq_refl eq_refl eq_refl callable_reset eq_refl).
Defined.

(** X16: when [args] is neither a list, a string nor a dict (a number, a
    boolean or null), unpacking it raises before the function runs: the
    caller gets [success] false with the [TypeError] of the starred call,
    which names the function by its module and qualified name, and nothing
    but that frame changes. *)
Theorem non_iterable_args_are_refused (json_loads : decoder) cls ws parsed rpc_id name args m w :
  py_get parsed "id" JNull = inr rpc_id ->
  py_get parsed "method" JNull = inr (JStr name) ->
  py_get parsed "args" (JList []) = inr args ->
  _get_callable_methods cls !! name = Some m ->
  (forall l, args <> JList l) -> (forall s, args <> JStr s) -> (forall d, args <> JDict d) ->
  broken w !! ws = None ->
  _handle_rpc json_loads cls ws parsed w
  = Ok tt (with_outbox
             (outbox w ++ [(ws, json_dumps (rpc_error rpc_id
                 (function_str m +:+ " argument after * must be an iterable, not "
                    +:+ type_name args)))]) w).
Proof.
  intros Hi Hm Ha Hc Hl Hs Hd Hb.
  rewrite (handle_rpc_unfold json_loads cls ws parsed rpc_id name args w Hi Hm Ha), Hc.
  unfold try_except.
  destruct args as [| b | z | r | s | l | d];
    try (simpl lift; unfold bind at 1; unfold raise at 1;
         apply ws_send_ok; exact Hb).
  - exfalso. exact (Hs s eq_refl).
  - exfalso. exact (Hl l eq_refl).
  - exfalso. exact (Hd d eq_refl).
Qed.

Lemma non_iterable_args_are_refused_witness :
  _handle_rpc Decoder.loads CounterAgent 1
    (JDict [("id", JInt 7); ("method", JStr "reset"); ("args", JInt 3)]) w_one_socket
  = Ok tt (with_outbox
             [(1, dq "{'type': 'rpc', 'id': 7, 'success': false, 'error': 'entry.CounterAgent.reset() argument after * must be an iterable, not int'}")]
             w_one_socket).
Proof.
  exact (non_iterable_args_are_refused Decoder.loads CounterAgent 1
           (JDict [("id", JInt 7); ("method", JStr "reset"); ("args", JInt 3)])
           (JInt 7) "reset" (JInt 3) reset_method w_one_socket
           eq_refl eq_refl eq_refl callable_reset
           ltac:(discriminate) ltac:(discriminate) ltac:(discriminate) eq_refl).
Defined.

(** X17: [CounterAgent.reset], called over open sockets without arguments,
    stores count 0 and last action [reset], sends the state frame to every
    socket, the caller included, and then answers the caller with the result
    0.  Called with arguments it is refused with the [TypeError] of the call
    and changes nothing but the caller's frames. *)
Theorem reset_stores_and_answers (json_loads : decoder) rpc_id ws w :
  healthy w None (sockets w) ->
  broken w !! ws = None ->
  let w1 := written (PJson counter_reset) (json_dumps counter_reset)
              (json_dumps (state_message counter_reset)) (sockets w) w in
  _handle_rpc json_loads CounterAgent ws (reset_call rpc_id []) w
  = Ok tt (with_outbox (outbox w1 ++ [(ws, json_dumps (rpc_result rpc_id (JInt 0)))]) w1) /\
  (forall a args,
     _handle_rpc json_loads CounterAgent ws (reset_call rpc_id (a :: args)) w
     = Ok tt (with_outbox
                (outbox w ++ [(ws, json_dumps (rpc_error rpc_id
                    ("CounterAgent.reset() takes 1 positional argument but "
                       +:+ pretty (S (S (length args))) +:+ " were given")))]) w)).
Proof.
  intros Hh Hb w1. split.
  - rewrite (handle_rpc_unfold json_loads CounterAgent ws (reset_call rpc_id []) rpc_id
               "reset" (JList []) w eq_refl eq_refl eq_refl), callable_reset.
    unfold try_except. simpl lift. unfold bind at 1. unfold ret at 1.
    assert (Hcall : body reset_method (self json_loads CounterAgent) [] w
                    = Ok (PJson (JInt 0)) w1).
    { simpl body. unfold reset_body. simpl self_set_state. unfold set_state.
      unfold bind. rewrite (set_state_internal_ok CounterAgent _ None w Hh).
      rewrite recipients_all. reflexivity. }
    rewrite (bind_Ok _ _ _ _ _ Hcall). simpl lift. unfold bind at 1. unfold ret at 1.
    rewrite (ws_send_ok ws _ w1 Hb). reflexivity.
  - intros a args.
    rewrite (handle_rpc_unfold json_loads CounterAgent ws (reset_call rpc_id (a :: args))
               rpc_id "reset" (JList (a :: args)) w eq_refl eq_refl eq_refl), callable_reset.
    unfold try_except. simpl lift. unfold bind at 1. unfold ret at 1.
    simpl body. unfold reset_body. unfold bind at 1. unfold raise at 1.
    rewrite (ws_send_ok ws _ w Hb). reflexivity.
Qed.

Lemma reset_stores_and_answers_witness :
  exists w',
    _handle_rpc Decoder.loads CounterAgent 3 (reset_call (JStr "r1") []) w_three_sockets
    = Ok tt w' /\
    table w' !! STATE_ROW_ID = Some (Some (dq "{'count': 0, 'last_action': 'reset'}")) /\
    outbox w'
    = [(1, dq "{'type': 'cf_agent_state', 'state': {'count': 0, 'last_action': 'reset'}}");
       (3, dq "{'type': 'cf_agent_state', 'state': {'count': 0, 'last_action': 'reset'}}");
       (5, dq "{'type': 'cf_agent_state', 'state': {'count': 0, 'last_action': 'reset'}}");
       (3, dq "{'type': 'rpc', 'id': 'r1', 'success': true, 'result': 0}")].
Proof.
  eexists. split.
  - exact (proj1 (reset_stores_and_answers Decoder.loads (JStr "r1") 3 w_three_sockets
                    (healthy_empty w_three_sockets None [1; 3; 5] eq_refl) eq_refl)).
  - split; vm_compute; reflexivity.
Defined.

(** ** More on incoming frames *)

(** X18: a binary frame, a text on which [json.loads] raises
    [JSONDecodeError], and an object whose [type] is missing or is neither
    [cf_agent_state] nor [rpc] are handed to [on_message] as received, and
    the agent does nothing else with them.  A text on which [json.loads]
    raises another exception raises it out of [webSocketMessage], and a text
    that decodes to anything but an object raises [AttributeError], neither
    reaching [on_message]. *)
Theorem frames_outside_the_protocol (json_loads : decoder) cls ws w :
  (forall b, webSocketMessage json_loads cls ws (Binary b) w
             = on_message cls ws (Binary b) w) /\
  (forall s, json_loads s = None ->
     webSocketMessage json_loads cls ws (Text s) w
     = if is_instance ["JSONDecodeError"] (decode_exn json_loads s)
       then on_message cls ws (Text s) w
       else Raise (decode_exn json_loads s) w) /\
  (forall s items,
     json_loads s = Some (JDict items) ->
     eq_str (default JNull (dict_lookup "type" items)) CF_AGENT_STATE = false ->
     eq_str (default JNull (dict_lookup "type" items)) RPC = false ->
     webSocketMessage json_loads cls ws (Text s) w = on_message cls ws (Text s) w) /\
  (forall s parsed,
     json_loads s = Some parsed ->
     (forall items, parsed <> JDict items) ->
     webSocketMessage json_loads cls ws (Text s) w
     = Raise (AttributeError ("'" +:+ type_name parsed +:+ "' object has no attribute 'get'"))
         w).
Proof.
  split; [reflexivity |]. split; [| split].
  - intros s Hs. unfold webSocketMessage. rewrite Hs.
    destruct (is_instance ["JSONDecodeError"] (decode_exn json_loads s)); reflexivity.
  - intros s items Hs H1 H2. unfold webSocketMessage. rewrite Hs.
    simpl. unfold bind at 1. unfold ret at 1. rewrite H1, H2. reflexivity.
  - intros s parsed Hs Hn. unfold webSocketMessage. rewrite Hs.
    destruct parsed; try reflexivity. exfalso. exact (Hn items eq_refl).
Qed.

Lemma frames_outside_the_protocol_witness :
  webSocketMessage Decoder.loads CounterAgent 1 (Text "hello") w_one_socket
  = Ok tt w_one_socket /\
  (exists e, exn_class e = "ValueError" /\
     webSocketMessage Decoder.loads CounterAgent 1 (Text (times "9" 4301)) w_one_socket
     = Raise e w_one_socket) /\
  webSocketMessage Decoder.loads CounterAgent 1 (Text (dq "{'kind': 'ping'}")) w_one_socket
  = Ok tt w_one_socket /\
  webSocketMessage Decoder.loads CounterAgent 1 (Text "[1, 2]") w_one_socket
  = Raise (AttributeError "'list' object has no attribute 'get'") w_one_socket.
Proof.
  destruct (frames_outside_the_protocol Decoder.loads CounterAgent 1 w_one_socket)
    as [_ [Hu [Hd Hn]]].
  split; [exact (Hu "hello" eq_refl) |]. split; [| split].
  - assert (Hl : Decoder.loads (times "9" 4301) = None) by (vm_compute; reflexivity).
    pose proof (Hu (times "9" 4301) Hl) as H.
    assert (Hc : is_instance ["JSONDecodeError"]
                   (decode_exn Decoder.loads (times "9" 4301)) = false)
      by (vm_compute; reflexivity).
    rewrite Hc in H. eexists. split; [| exact H]. vm_compute. reflexivity.
  - exact (Hd (dq "{'kind': 'ping'}") [("kind", JStr "ping")] eq_refl eq_refl eq_refl).
  - exact (Hn "[1, 2]" (JList [JInt 1; JInt 2]) eq_refl ltac:(discriminate)).
Defined.
